(** * Savings agent: Windfall Wallet, Smart Sweep and Soft Lock

    A shallow embedding of [backend/savingsAgent.js], of the two vault
    withdrawal routes of [backend/server.js] that drive it, and of the two
    SQLite tables ([increase_accounts], [withdrawal_requests]) these read
    and write.

    Conventions of the embedding.
    - The two detectors are embedded twice.  [Windfall64] and [Sweep64]
      compute on binary64 numbers, with the rounding of every operation,
      on records whose amount may be a number, a boolean, [null] or
      missing, and with the answer of the [catch]; what happens at a
      threshold or on a malformed record is settled there.  [Windfall]
      and [Sweep] take the amounts as exact rationals ([Q]), [None] for a
      value every comparison is false on; they carry the facts that
      depend on the order of the amounts and on which records are
      selected.
    - A date is the time value of [new Date(t.date)] in milliseconds since
      the epoch; [None] is the Invalid Date, whose time value is NaN.
    - The clock ([new Date()], [Date.now()], SQLite's CURRENT_TIMESTAMP) is
      an explicit argument [now], in milliseconds.
    - The time zone of the server is a parameter [tz]: SQLite writes
      timestamps as UTC text and [new Date] reads that text as local
      time.
    - The database is threaded through a small state monad; [dbGet] reads,
      [dbRun] writes. *)

From Stdlib Require Import ZArith QArith Qround Qabs.
From Stdlib Require Import List String Ascii DecimalString Bool Lia.
From Stdlib Require Import Permutation Sorted.
From Stdlib Require Import Lqa.
From Stdlib Require Import SpecFloat.
Import ListNotations.

(** ** JavaScript primitives used by the agent *)

Module Js.

(** A JavaScript value read as a number; [None] is anything for which
    [x < 0] and [x > 0] are both false because it is not a number.  A
    string that reads as a number is not modelled. *)
Definition number := option Q.

(** The time value of a [Date]; [None] for the Invalid Date. *)
Definition time := option Z.

Definition Qltb (x y : Q) : bool := negb (Qle_bool y x).

(** [a < 0] *)
Definition lt0 (a : number) : bool :=
  match a with Some q => Qltb q 0 | None => false end.

(** [a > 0] *)
Definition gt0 (a : number) : bool :=
  match a with Some q => Qltb 0 q | None => false end.

(** The rational a numeric value stands for.  The agent does arithmetic
    only on amounts that passed [a < 0] or [a > 0], which are numbers. *)
Definition valueOf (a : number) : Q :=
  match a with Some q => q | None => 0 end.

(** [d >= bound] and [d < bound] on dates, by time value. *)
Definition date_ge (d : time) (bound : Z) : bool :=
  match d with Some ms => (bound <=? ms)%Z | None => false end.

Definition date_lt (d : time) (bound : Z) : bool :=
  match d with Some ms => (ms <? bound)%Z | None => false end.

(** Truthiness of a string-or-undefined value: [undefined], [null] and
    the empty string are falsy. *)
Definition truthy (s : option string) : bool :=
  match s with
  | Some EmptyString | None => false
  | Some _ => true
  end.

(** [a || b] where [b] is a string. *)
Definition or_else (a : option string) (b : string) : string :=
  match a with
  | Some (String c s) => String c s
  | _ => b
  end.

(** Decimal rendering of an integer, as a template literal prints it. *)
Definition Z_to_string (z : Z) : string :=
  NilZero.string_of_int (Z.to_int z).

(** The digits of [n], left-padded with zeros to [width] characters. *)
Fixpoint pad_left (width : nat) (s : string) : string :=
  match width with
  | O => s
  | S w => if (String.length s <=? w)%nat then pad_left w (String "0" s) else s
  end.

(** [x.toFixed(digits)]: the sign, then the integer [n] closest to
    [|x| * 10^digits] (the larger one on a tie), printed with [digits]
    decimals.  Exact on rationals; the exponent form JavaScript switches
    to from 1e21 on is not modelled. *)
Definition toFixed (digits : nat) (x : Q) : string :=
  let scale := (10 ^ Z.of_nat digits)%Z in
  let n := Qfloor (Qabs x * inject_Z scale + (1 # 2)) in
  let body :=
    match digits with
    | O => Z_to_string n
    | S _ =>
        (Z_to_string (n / scale) ++ "." ++
         pad_left digits (Z_to_string (n mod scale)))%string
    end in
  if Qltb x 0 then ("-" ++ body)%string else body.

(** [Math.ceil] *)
Definition ceil (x : Q) : Z := Qceiling x.

(** The time zone of the server process: [localTZA t] is the offset of
    local time from UTC, in milliseconds, in force at the local time [t]
    (negative west of Greenwich). *)
Class timezone := localTZA : Z -> Z.

(** [new Date(text)] for a date and time without a zone, the form SQLite
    writes: the digits are read as local time.  [text] is the time value
    the same digits have when read as UTC. *)
Definition parseLocal {tz : timezone} (text : Z) : Z := (text - localTZA text)%Z.

Definition nl : string := String (ascii_of_nat 10) EmptyString.

End Js.

(** ** 1. Windfall Wallet, on exact amounts *)

Module Windfall.
Import Js.

(** A Plaid-style transaction: negative [amount] is income. *)
Record transaction := {
  t_amount : number;
  t_date : time;
  t_name : option string;
  t_merchant_name : option string
}.

(** [arr.sort((a, b) => a - b)]: a stable ascending sort. *)
Fixpoint insert (x : Q) (l : list Q) : list Q :=
  match l with
  | [] => [x]
  | y :: l' => if Qle_bool x y then x :: l else y :: insert x l'
  end.

Definition sort (l : list Q) : list Q := fold_right insert [] l.

(** [Math.abs(t.amount)] *)
Definition absAmount (t : transaction) : Q := Qabs (valueOf (t_amount t)).

(** [transactions.filter(t => t.amount < 0).map(t => Math.abs(t.amount))] *)
Definition incomeTransactions (transactions : list transaction) : list Q :=
  map absAmount (filter (fun t => lt0 (t_amount t)) transactions).

(** [sorted[Math.floor(sorted.length / 2)]] after the in-place sort. *)
Definition median (incomes : list Q) : Q :=
  nth (Nat.div (List.length incomes) 2) (sort incomes) 0.

Definition thirtyDaysAgo (now : Z) : Z := (now - 30 * 24 * 60 * 60 * 1000)%Z.

(** The predicate of the second [filter]. *)
Definition isRecentLargeDeposit (now : Z) (med : Q) (t : transaction) : bool :=
  lt0 (t_amount t)
  && Qltb (med * 1.5) (absAmount t)
  && date_ge (t_date t) (thirtyDaysAgo now).

(** The object the [map] after the filter builds. *)
Record deposit := {
  d_amount : Q;
  d_date : time;
  d_name : option string;
  d_merchant : option string
}.

Definition toDeposit (t : transaction) : deposit :=
  {| d_amount := absAmount t;
     d_date := t_date t;
     d_name := t_name t;
     d_merchant := t_merchant_name t |}.

Definition recentLargeDeposits (now : Z) (med : Q)
    (transactions : list transaction) : list deposit :=
  map toDeposit (filter (isRecentLargeDeposit now med) transactions).

Record windfall := {
  amount : Q;
  medianIncome : Q;
  multiplier : string;
  source : string;
  date : time;
  suggestedSavings : Q;
  reason : string
}.

Inductive result :=
| NotWindfall (reason : string)
| IsWindfall (w : windfall).

Definition isWindfall (r : result) : bool :=
  match r with IsWindfall _ => true | NotWindfall _ => false end.

(** The object returned for the selected deposit.  The template literal of
    [reason] reads [windfall.source]; the mapped object has the
    properties [amount], [date], [name] and [merchant] only, so that
    interpolation prints [undefined]. *)
Definition report (w : deposit) (med : Q) : windfall :=
  {| amount := d_amount w;
     medianIncome := med;
     multiplier := toFixed 1 (d_amount w / med);
     source := or_else (d_name w) (or_else (d_merchant w) "Unknown");
     date := d_date w;
     suggestedSavings := d_amount w * 0.2;
     reason := ("Detected " ++ "undefined" ++ ": $" ++ toFixed 2 (d_amount w)
                ++ " (" ++ toFixed 1 (d_amount w / med)
                ++ "x your typical income)")%string |}.

Definition detectWindfall (now : Z) (transactions : list transaction) : result :=
  let incomes := incomeTransactions transactions in
  if (List.length incomes <? 2)%nat then
    NotWindfall "Not enough transaction history"
  else
    let med := median incomes in
    match recentLargeDeposits now med transactions with
    | w :: _ => IsWindfall (report w med)
    | [] => NotWindfall "No recent large deposits detected"
    end.

(** *** Predicates the properties below are stated with *)

(** [t] is a credit whose absolute amount strictly exceeds [1.5 * med]
    and whose date is no earlier than 30 days before [now]. *)
Definition qualifies (now : Z) (med : Q) (t : transaction) : Prop :=
  exists q ms,
    t_amount t = Some q /\ q < 0 /\ med * 1.5 < Qabs q /\
    t_date t = Some ms /\ (now - 30 * 86400000 <= ms)%Z.

End Windfall.

(** ** 2. Smart Sweep, on exact amounts *)

Module Sweep.
Import Js.
Import Windfall.

Definition oneWeekAgo (now : Z) : Z := (now - 7 * 24 * 60 * 60 * 1000)%Z.
Definition fiveWeeksAgo (now : Z) : Z := (now - 35 * 24 * 60 * 60 * 1000)%Z.

(** [t.amount > 0 && txnDate >= oneWeekAgo] *)
Definition inThisWeek (now : Z) (t : transaction) : bool :=
  gt0 (t_amount t) && date_ge (t_date t) (oneWeekAgo now).

(** [t.amount > 0 && txnDate >= fiveWeeksAgo && txnDate < oneWeekAgo] *)
Definition inLast4Weeks (now : Z) (t : transaction) : bool :=
  gt0 (t_amount t) && date_ge (t_date t) (fiveWeeksAgo now)
  && date_lt (t_date t) (oneWeekAgo now).

(** [.reduce((sum, t) => sum + t.amount, 0)] over transactions that
    passed a filter requiring [t.amount > 0]. *)
Definition sumAmounts (l : list transaction) : Q :=
  fold_left (fun sum t => sum + valueOf (t_amount t)) l 0.

Definition thisWeekSpending (now : Z) (transactions : list transaction) : Q :=
  sumAmounts (filter (inThisWeek now) transactions).

Definition last4WeeksTransactions (now : Z) (transactions : list transaction)
  : list transaction :=
  filter (inLast4Weeks now) transactions.

Definition avgWeeklySpending (now : Z) (transactions : list transaction) : Q :=
  sumAmounts (last4WeeksTransactions now transactions) / 4.

Definition unspentAmount (now : Z) (transactions : list transaction) : Q :=
  avgWeeklySpending now transactions - thisWeekSpending now transactions.

Record sweep := {
  sw_thisWeekSpending : Q;
  sw_avgWeeklySpending : Q;
  sw_unspentAmount : Q;
  sw_suggestedSavings : Q;
  sw_reason : string
}.

Inductive result :=
| NoSweep (reason : string)
| HasSweep (s : sweep).

Definition hasSweepOpportunity (r : result) : bool :=
  match r with HasSweep _ => true | NoSweep _ => false end.

Definition analyzeWeeklySweep (now : Z) (transactions : list transaction) : result :=
  let thisWeek := thisWeekSpending now transactions in
  match last4WeeksTransactions now transactions with
  | [] => NoSweep "Not enough historical data"
  | _ :: _ =>
      let avg := avgWeeklySpending now transactions in
      let unspent := avg - thisWeek in
      if Qltb 5 unspent then
        HasSweep {| sw_thisWeekSpending := thisWeek;
                    sw_avgWeeklySpending := avg;
                    sw_unspentAmount := unspent;
                    sw_suggestedSavings := unspent * 0.5;
                    sw_reason := ("You spent $" ++ toFixed 2 unspent
                                  ++ " less than usual this week!")%string |}
      else
        NoSweep (if Qltb avg thisWeek
                 then "You spent more than usual this week"
                 else "Unspent amount is too small to sweep")
  end.

(** *** Predicates the properties below are stated with *)

(** [t] is a debit dated in the four weeks before this week: from 35 days
    before [now] (included) to 7 days before [now] (excluded). *)
Definition baselineDebit (now : Z) (t : transaction) : Prop :=
  exists q ms,
    t_amount t = Some q /\ 0 < q /\ t_date t = Some ms /\
    (now - 35 * 86400000 <= ms < now - 7 * 86400000)%Z.



End Sweep.

(** ** Binary64 numbers *)

Module Float64.
Import Js.

(** A JavaScript Number: an IEEE 754 binary64 value, with the operations
    of the standard library's specification of that format (round to
    nearest, ties to even). *)
Definition float : Type := spec_float.

Definition prec : Z := 53.
Definition emax : Z := 1024.

Definition nan : float := S754_nan.
Definition zero : float := S754_zero false.

(** The Number an integer literal denotes. *)
Definition of_Z (z : Z) : float := binary_normalize prec emax z 0 false.

Definition add : float -> float -> float := SFadd prec emax.
Definition sub : float -> float -> float := SFsub prec emax.
Definition mul : float -> float -> float := SFmul prec emax.
Definition div : float -> float -> float := SFdiv prec emax.

(** [Math.abs] *)
Definition abs : float -> float := SFabs.

(** [x < y]; [x > y] is [ltb y x]. *)
Definition ltb : float -> float -> bool := SFltb.

(** [x === y] on Numbers. *)
Definition eqb : float -> float -> bool := SFeqb.

(** The Number a decimal literal [n / d] denotes, [d] a power of ten below
    2^53 and [|n|] below 2^53: the double nearest to the quotient, which
    is what the correctly rounded division of the two integers gives. *)
Definition dec (n d : Z) : float := div (of_Z n) (of_Z d).

(** The literals of the agent. *)
Definition one_and_a_half : float := dec 15 10.
Definition one_fifth : float := dec 2 10.
Definition one_half : float := dec 5 10.
Definition five : float := of_Z 5.
Definition four : float := of_Z 4.

(** The real number a finite Number stands for. *)
Definition exact (x : float) : Q :=
  match x with
  | S754_finite s m e =>
      let v := match e with
               | Zneg p => Qmake (Zpos m) (Pos.pow 2 p)
               | _ => inject_Z (Zpos m * 2 ^ e)
               end in
      if s then Qopp v else v
  | _ => 0
  end.

(** *** Number::toString, for the integers from 1e21 on *)

Fixpoint strip_zeros_rev (s : list ascii) : list ascii :=
  match s with
  | "0"%char :: s' => strip_zeros_rev s'
  | _ => s
  end.

(** A decimal without its trailing zeros. *)
Definition significand (s : string) : string :=
  string_of_list_ascii
    (rev (strip_zeros_rev (rev (list_ascii_of_string s)))).

(** Of the two [k]-digit decimals next to [X] (which has [n] digits), one
    that reads back as [x]: the closer one when both do, the one with an
    even last digit when they are equally close. *)
Definition shortest_at (x : float) (X : Z) (n k : nat) : option Z :=
  let p := (10 ^ Z.of_nat (n - k))%Z in
  let lo := (X / p * p)%Z in
  let hi := (lo + p)%Z in
  match eqb (of_Z lo) x, eqb (of_Z hi) x with
  | true, true =>
      Some (if (X - lo <? hi - X)%Z then lo
            else if (hi - X <? X - lo)%Z then hi
            else if Z.even (lo / p) then lo else hi)
  | true, false => Some lo
  | false, true => Some hi
  | false, false => None
  end.

(** The decimal with the fewest digits that reads back as [x]; 17 digits
    always do. *)
Fixpoint shortest (x : float) (X : Z) (n : nat) (tries : nat) (k : nat) : Z :=
  match tries with
  | O => X
  | S tries' =>
      match shortest_at x X n k with
      | Some v => v
      | None => shortest x X n tries' (S k)
      end
  end.

(** [String(x)] for a finite [x >= 1e21]: the digits, then [e+] and the
    decimal exponent. *)
Definition toString_large (x : float) : string :=
  let X := Qfloor (exact x) in
  let v := shortest x X (String.length (Z_to_string X)) 17 1 in
  let e10 := Z_to_string (Z.of_nat (String.length (Z_to_string v)) - 1) in
  match significand (Z_to_string v) with
  | String d EmptyString => (String d EmptyString ++ "e+" ++ e10)%string
  | String d ds => (String d ("." ++ ds) ++ "e+" ++ e10)%string
  | EmptyString => EmptyString
  end.

(** [x.toFixed(digits)]: NaN and the infinities print as such; from 1e21
    on the Number prints as [String(x)]; otherwise the digits are those
    of the integer closest to the exact value of [x] times [10^digits]
    (the larger one on a tie). *)
Definition toFixed (digits : nat) (x : float) : string :=
  match x with
  | S754_nan => "NaN"
  | S754_infinity s => if s then "-Infinity" else "Infinity"
  | S754_zero _ => Js.toFixed digits 0
  | S754_finite s _ _ =>
      if Qle_bool (inject_Z (10 ^ 21)) (Qabs (exact x)) then
        ((if s then "-" else "") ++ toString_large (abs x))%string
      else Js.toFixed digits (exact x)
  end.

End Float64.

(** ** Transactions as the request body carries them *)

Module Json.
Import Js Float64.

(** The amount of a transaction: a JSON number, [true], [false], [null],
    or [undefined] when the record has no such property.  Amounts given
    as text, arrays or objects are left out: [sum + t.amount] would
    concatenate them. *)
Inductive value :=
| VUndefined
| VNull
| VBoolean (b : bool)
| VNumber (x : float).

(** [ToNumber], which [<], [>], [Math.abs] and [+] apply to such a value. *)
Definition ToNumber (v : value) : float :=
  match v with
  | VUndefined => nan
  | VNull => zero
  | VBoolean true => of_Z 1
  | VBoolean false => zero
  | VNumber x => x
  end.

(** A record of the array; [t_date] is the time value of
    [new Date(t.date)]. *)
Record transaction := {
  t_amount : value;
  t_date : time;
  t_name : option string;
  t_merchant_name : option string
}.

(** An element of the array: a record, or [null], on which [t.amount]
    throws a TypeError. *)
Definition element : Type := option transaction.

(** The records of the array when no element is [null]. *)
Fixpoint records (l : list element) : option (list transaction) :=
  match l with
  | [] => Some []
  | None :: _ => None
  | Some t :: l' =>
      match records l' with
      | Some ts => Some (t :: ts)
      | None => None
      end
  end.

(** [t.amount < 0] *)
Definition isCredit (t : transaction) : bool := ltb (ToNumber (t_amount t)) zero.

(** [t.amount > 0] *)
Definition isDebit (t : transaction) : bool := ltb zero (ToNumber (t_amount t)).

(** [Math.abs(t.amount)] *)
Definition absAmount (t : transaction) : float := abs (ToNumber (t_amount t)).

End Json.

(** ** 1. Windfall Wallet, on binary64 amounts *)

Module Windfall64.
Import Js Float64 Json.

(** [arr.sort((a, b) => a - b)]: [a] stays before [b] unless [a - b > 0]. *)
Fixpoint insert (x : float) (l : list float) : list float :=
  match l with
  | [] => [x]
  | y :: l' => if ltb zero (sub x y) then y :: insert x l' else x :: l
  end.

Definition sort (l : list float) : list float := fold_right insert [] l.

(** [transactions.filter(t => t.amount < 0).map(t => Math.abs(t.amount))] *)
Definition incomeTransactions (transactions : list transaction) : list float :=
  map absAmount (filter isCredit transactions).

(** [sorted[Math.floor(sorted.length / 2)]] after the in-place sort. *)
Definition median (incomes : list float) : float :=
  nth (Nat.div (List.length incomes) 2) (sort incomes) nan.

(** The predicate of the second [filter]. *)
Definition isRecentLargeDeposit (now : Z) (med : float) (t : transaction) : bool :=
  isCredit t
  && ltb (mul med one_and_a_half) (absAmount t)
  && date_ge (t_date t) (Windfall.thirtyDaysAgo now).

(** The object the [map] after the filter builds. *)
Record deposit := {
  d_amount : float;
  d_date : time;
  d_name : option string;
  d_merchant : option string
}.

Definition toDeposit (t : transaction) : deposit :=
  {| d_amount := absAmount t;
     d_date := t_date t;
     d_name := t_name t;
     d_merchant := t_merchant_name t |}.

Definition recentLargeDeposits (now : Z) (med : float)
    (transactions : list transaction) : list deposit :=
  map toDeposit (filter (isRecentLargeDeposit now med) transactions).

Record windfall := {
  amount : float;
  medianIncome : float;
  multiplier : string;
  source : string;
  date : time;
  suggestedSavings : float;
  reason : string
}.

(** The three shapes of the answer; [Failed] is the one of the [catch],
    whose [error] text is the engine's. *)
Inductive result :=
| NotWindfall (reason : string)
| IsWindfall (w : windfall)
| Failed.

Definition isWindfall (r : result) : bool :=
  match r with IsWindfall _ => true | _ => false end.

Definition report (w : deposit) (med : float) : windfall :=
  {| amount := d_amount w;
     medianIncome := med;
     multiplier := toFixed 1 (div (d_amount w) med);
     source := or_else (d_name w) (or_else (d_merchant w) "Unknown");
     date := d_date w;
     suggestedSavings := mul (d_amount w) one_fifth;
     reason := ("Detected " ++ "undefined" ++ ": $" ++ toFixed 2 (d_amount w)
                ++ " (" ++ toFixed 1 (div (d_amount w) med)
                ++ "x your typical income)")%string |}.

(** The body of the [try], once every element was read as a record. *)
Definition detect (now : Z) (transactions : list transaction) : result :=
  let incomes := incomeTransactions transactions in
  if (List.length incomes <? 2)%nat then
    NotWindfall "Not enough transaction history"
  else
    let med := median incomes in
    match recentLargeDeposits now med transactions with
    | w :: _ => IsWindfall (report w med)
    | [] => NotWindfall "No recent large deposits detected"
    end.

Definition detectWindfall (now : Z) (transactions : list element) : result :=
  match records transactions with
  | Some ts => detect now ts
  | None => Failed
  end.

End Windfall64.

(** ** 2. Smart Sweep, on binary64 amounts *)

Module Sweep64.
Import Js Float64 Json.

(** [t.amount > 0 && txnDate >= oneWeekAgo] *)
Definition inThisWeek (now : Z) (t : transaction) : bool :=
  isDebit t && date_ge (t_date t) (Sweep.oneWeekAgo now).

(** [t.amount > 0 && txnDate >= fiveWeeksAgo && txnDate < oneWeekAgo] *)
Definition inLast4Weeks (now : Z) (t : transaction) : bool :=
  isDebit t && date_ge (t_date t) (Sweep.fiveWeeksAgo now)
  && date_lt (t_date t) (Sweep.oneWeekAgo now).

(** [.reduce((sum, t) => sum + t.amount, 0)] *)
Definition sumAmounts (l : list transaction) : float :=
  fold_left (fun sum t => add sum (ToNumber (t_amount t))) l zero.

Definition thisWeekSpending (now : Z) (transactions : list transaction) : float :=
  sumAmounts (filter (inThisWeek now) transactions).

Definition last4WeeksTransactions (now : Z) (transactions : list transaction)
  : list transaction :=
  filter (inLast4Weeks now) transactions.

Definition avgWeeklySpending (now : Z) (transactions : list transaction) : float :=
  div (sumAmounts (last4WeeksTransactions now transactions)) four.

Definition unspentAmount (now : Z) (transactions : list transaction) : float :=
  sub (avgWeeklySpending now transactions) (thisWeekSpending now transactions).

Record sweep := {
  sw_thisWeekSpending : float;
  sw_avgWeeklySpending : float;
  sw_unspentAmount : float;
  sw_suggestedSavings : float;
  sw_reason : string
}.

Inductive result :=
| NoSweep (reason : string)
| HasSweep (s : sweep)
| Failed.

Definition hasSweepOpportunity (r : result) : bool :=
  match r with HasSweep _ => true | _ => false end.

(** The body of the [try], once every element was read as a record. *)
Definition analyze (now : Z) (transactions : list transaction) : result :=
  let thisWeek := thisWeekSpending now transactions in
  match last4WeeksTransactions now transactions with
  | [] => NoSweep "Not enough historical data"
  | _ :: _ =>
      let avg := avgWeeklySpending now transactions in
      let unspent := sub avg thisWeek in
      if ltb five unspent then
        HasSweep {| sw_thisWeekSpending := thisWeek;
                    sw_avgWeeklySpending := avg;
                    sw_unspentAmount := unspent;
                    sw_suggestedSavings := mul unspent one_half;
                    sw_reason := ("You spent $" ++ toFixed 2 unspent
                                  ++ " less than usual this week!")%string |}
      else
        NoSweep (if ltb avg thisWeek
                 then "You spent more than usual this week"
                 else "Unspent amount is too small to sweep")
  end.

Definition analyzeWeeklySweep (now : Z) (transactions : list element) : result :=
  match records transactions with
  | Some ts => analyze now ts
  | None => Failed
  end.

End Sweep64.

(** ** Predicates the properties of the binary64 detectors are stated with *)

Module Spec64.
Import Js Float64 Json.

(** A number below zero: [-Infinity] or a finite number with the sign
    bit set. *)
Definition negative (x : float) : Prop :=
  match x with
  | S754_infinity true | S754_finite true _ _ => True
  | _ => False
  end.

(** A number above zero: [Infinity] or a finite number with the sign bit
    clear. *)
Definition positive (x : float) : Prop :=
  match x with
  | S754_infinity false | S754_finite false _ _ => True
  | _ => False
  end.

(** The amount of [t] is a negative number. *)
Definition credit (t : transaction) : Prop :=
  exists x, t_amount t = VNumber x /\ negative x.

(** The amount of [t] is a positive number, or [true]. *)
Definition debit (t : transaction) : Prop :=
  (exists x, t_amount t = VNumber x /\ positive x) \/ t_amount t = VBoolean true.

(** [t] is a credit whose absolute amount is above the product
    [med * 1.5] as the machine computes it, and whose date is no earlier
    than 30 days before [now]. *)
Definition qualifies (now : Z) (med : float) (t : transaction) : Prop :=
  credit t /\
  ltb (mul med one_and_a_half) (absAmount t) = true /\
  exists ms, t_date t = Some ms /\ (now - 30 * 86400000 <= ms)%Z.

(** [t] is a debit dated in the four weeks before this week: from 35 days
    before [now] (included) to 7 days before [now] (excluded). *)
Definition baselineDebit (now : Z) (t : transaction) : Prop :=
  debit t /\
  exists ms, t_date t = Some ms /\
             (now - 35 * 86400000 <= ms < now - 7 * 86400000)%Z.

(** The amount is a JSON number other than NaN. *)
Definition numericAmount (t : transaction) : bool :=
  match t_amount t with
  | VNumber S754_nan => false
  | VNumber _ => true
  | _ => false
  end.

(** The amount is a JSON number other than NaN, or [true]. *)
Definition countableAmount (t : transaction) : bool :=
  match t_amount t with
  | VBoolean true => true
  | _ => numericAmount t
  end.

(** The date parses. *)
Definition parsableDate (t : transaction) : bool :=
  match t_date t with Some _ => true | None => false end.

(** What a per-record normalizer would keep. *)
Definition wellFormed (t : transaction) : bool :=
  numericAmount t && parsableDate t.

End Spec64.

(** ** 3. Soft Lock vaults *)

Module SoftLock.
Import Js.

(** A row of [increase_accounts] (the columns the agent reads). *)
Record account := {
  increase_account_id : string;
  account_type : string;
  name : string;
  balance : Q;
  purpose : option string;
  goal_amount : option Q
}.

(** A row of [withdrawal_requests].  [created_at] and [completed_at] hold
    the text CURRENT_TIMESTAMP wrote, [YYYY-MM-DD HH:MM:SS] in UTC, as the
    time value of those digits read as UTC. *)
Record withdrawal_request := {
  id : Z;
  vault_id : string;
  amount : Q;
  reason : string;
  status : string;
  impact_message : string;
  created_at : Z;
  completed_at : option Z
}.

Record db := {
  increase_accounts : list account;
  withdrawal_requests : list withdrawal_request
}.

(** *** The database monad *)

Definition M (A : Type) : Type := db -> A * db.

Definition ret {A : Type} (a : A) : M A := fun s => (a, s).

Definition bind {A B : Type} (m : M A) (k : A -> M B) : M B :=
  fun s => let (a, s') := m s in k a s'.

Notation "x <- m ;; k" := (bind m (fun x => k))
  (at level 61, m at next level, right associativity).

(** [dbGet(sql, params)]: the first row of a SELECT, if any. *)
Definition dbGet {A : Type} (query : db -> option A) : M (option A) :=
  fun s => (query s, s).

(** [dbRun(sql, params)]: an INSERT or UPDATE. *)
Definition dbRun (statement : db -> db) : M unit :=
  fun s => (tt, statement s).

(** *** The SQL statements *)

(** [SELECT * FROM increase_accounts
     WHERE increase_account_id = ? AND account_type = 'vault'] *)
Definition select_vault (vaultId : string) (s : db) : option account :=
  find (fun a => String.eqb (increase_account_id a) vaultId
                 && String.eqb (account_type a) "vault")
       (increase_accounts s).

(** [SELECT * FROM increase_accounts WHERE increase_account_id = ?] *)
Definition select_account (vaultId : string) (s : db) : option account :=
  find (fun a => String.eqb (increase_account_id a) vaultId)
       (increase_accounts s).

(** [WHERE vault_id = ? AND status = 'pending'] *)
Definition is_pending_for (vaultId : string) (r : withdrawal_request) : bool :=
  String.eqb (vault_id r) vaultId && String.eqb (status r) "pending".

(** [ORDER BY created_at DESC LIMIT 1]; among rows created in the same
    second the one inserted first is kept. *)
Definition newest (rows : list withdrawal_request) : option withdrawal_request :=
  fold_left
    (fun best r =>
       match best with
       | None => Some r
       | Some b => if (created_at b <? created_at r)%Z then Some r else Some b
       end)
    rows None.

(** [SELECT * FROM withdrawal_requests
     WHERE vault_id = ? AND status = 'pending'
     ORDER BY created_at DESC LIMIT 1] *)
Definition select_pending (vaultId : string) (s : db)
  : option withdrawal_request :=
  newest (filter (is_pending_for vaultId) (withdrawal_requests s)).

(** CURRENT_TIMESTAMP has a resolution of one second. *)
Definition current_timestamp (now : Z) : Z := (1000 * (now / 1000))%Z.

(** INTEGER PRIMARY KEY AUTOINCREMENT: one more than the largest id. *)
Definition next_id (rows : list withdrawal_request) : Z :=
  (1 + fold_right (fun r m => Z.max (id r) m) 0 rows)%Z.

(** [INSERT INTO withdrawal_requests
     (vault_id, amount, reason, status, impact_message)
     VALUES (?, ?, ?, 'pending', ?)] *)
Definition insert_request (vaultId : string) (amt : Q) (why impact : string)
    (now : Z) (s : db) : db :=
  {| increase_accounts := increase_accounts s;
     withdrawal_requests :=
       withdrawal_requests s ++
       [ {| id := next_id (withdrawal_requests s);
            vault_id := vaultId;
            amount := amt;
            reason := why;
            status := "pending";
            impact_message := impact;
            created_at := current_timestamp now;
            completed_at := None |} ] |}.

(** [UPDATE withdrawal_requests
     SET status = 'completed', completed_at = CURRENT_TIMESTAMP
     WHERE id = ?] *)
Definition mark_completed (requestId : Z) (now : Z) (s : db) : db :=
  {| increase_accounts := increase_accounts s;
     withdrawal_requests :=
       map (fun r =>
              if (id r =? requestId)%Z then
                {| id := id r;
                   vault_id := vault_id r;
                   amount := amount r;
                   reason := reason r;
                   status := "completed";
                   impact_message := impact_message r;
                   created_at := created_at r;
                   completed_at := Some (current_timestamp now) |}
              else r)
           (withdrawal_requests s) |}.

(** [UPDATE increase_accounts SET balance = ?
     WHERE increase_account_id = ?] *)
Definition updateAccountBalance (accountId : string) (newBalance : Q)
    (s : db) : db :=
  {| increase_accounts :=
       map (fun a =>
              if String.eqb (increase_account_id a) accountId then
                {| increase_account_id := increase_account_id a;
                   account_type := account_type a;
                   name := name a;
                   balance := newBalance;
                   purpose := purpose a;
                   goal_amount := goal_amount a |}
              else a)
           (increase_accounts s);
     withdrawal_requests := withdrawal_requests s |}.

(** *** checkSoftLock *)

Record vault_info := {
  v_name : string;
  v_balance : Q;
  v_goalAmount : option Q;
  v_purpose : option string
}.

(** The four shapes of the object [checkSoftLock] returns. *)
Inductive lock_check :=
| LockError (error : string)
| LockAllowed (message : string) (withdrawalRequestId : Z)
| LockCooling (reason : string) (hoursRemaining : Z) (message : string)
| LockNewRequest (reason : string) (requiresCooling : bool) (vault : vault_info).

(** [lockCheck.allowed] *)
Definition allowed (c : lock_check) : bool :=
  match c with LockAllowed _ _ => true | _ => false end.

(** [lockCheck.reason] *)
Definition lock_reason (c : lock_check) : option string :=
  match c with
  | LockCooling r _ _ => Some r
  | LockNewRequest r _ _ => Some r
  | _ => None
  end.

Section Server.
Context {tz : timezone}.

(** [new Date(existingRequest.created_at)]: the stored text has no zone
    and is read as local time. *)
Definition requestTime (r : withdrawal_request) : Z :=
  parseLocal (created_at r).

(** [(now - requestTime) / (1000 * 60 * 60)] *)
Definition hoursSinceRequest (now : Z) (r : withdrawal_request) : Q :=
  inject_Z (now - requestTime r) / inject_Z (1000 * 60 * 60).

Definition checkSoftLock (vaultId : string) (requestedAmount : Q) (now : Z)
  : M lock_check :=
  vault <- dbGet (select_vault vaultId) ;;
  match vault with
  | None => ret (LockError "Vault not found")
  | Some vault =>
      existingRequest <- dbGet (select_pending vaultId) ;;
      match existingRequest with
      | Some existingRequest =>
          let hours := hoursSinceRequest now existingRequest in
          if Qle_bool 24 hours then
            ret (LockAllowed "Withdrawal unlocked after 24-hour cooling period"
                             (id existingRequest))
          else
            let hoursRemaining := ceil (24 - hours) in
            ret (LockCooling "cooling_period" hoursRemaining
                   ("Withdrawal will be available in "
                    ++ Z_to_string hoursRemaining ++ " hours")%string)
      | None =>
          ret (LockNewRequest "new_request" true
                 {| v_name := name vault;
                    v_balance := balance vault;
                    v_goalAmount := goal_amount vault;
                    v_purpose := purpose vault |})
      end
  end.

(** *** createWithdrawalRequest *)

Inductive create_result :=
| CreateError (error : string)
| Created (message : string) (impact : string) (availableAt : Z).

(** [result.success] *)
Definition success (r : create_result) : bool :=
  match r with Created _ _ _ => true | CreateError _ => false end.

(** The goal-impact text; [if (goalAmount)] is false for NULL and for 0. *)
Definition impactMessage (vault : account) (amt : Q) : string :=
  let currentBalance := balance vault in
  let newBalance := currentBalance - amt in
  match goal_amount vault with
  | Some goalAmount =>
      if Qeq_bool goalAmount 0 then EmptyString
      else
        let currentProgress := (currentBalance / goalAmount) * 100 in
        let newProgress := (newBalance / goalAmount) * 100 in
        let progressLoss := currentProgress - newProgress in
        let weeksDelay := ceil (progressLoss / 5) in
        ("Withdrawing now means:" ++ nl
         ++ "- Your progress drops from " ++ toFixed 1 currentProgress
         ++ "% to " ++ toFixed 1 newProgress ++ "%" ++ nl
         ++ "- You'll reach your goal approximately "
         ++ Z_to_string weeksDelay ++ " weeks later")%string
  | None => EmptyString
  end.

(** [reason = ''] is the default of an omitted third argument.
    [availableAt] is the time value of the date whose ISO form is
    returned. *)
Definition createWithdrawalRequest (vaultId : string) (amt : Q)
    (why : option string) (now : Z) : M create_result :=
  vault <- dbGet (select_account vaultId) ;;
  match vault with
  | None => ret (CreateError "Vault not found")
  | Some vault =>
      let impact := impactMessage vault amt in
      _ <- dbRun (insert_request vaultId amt
                    (match why with Some r => r | None => EmptyString end)
                    impact now) ;;
      ret (Created "24-hour cooling period started" impact
                   (now + 24 * 60 * 60 * 1000)%Z)
  end.

(** *** The withdrawal routes of the server *)

(** What the Increase API answered to a transfer: whether the transfer
    was accepted, and the fresh balances of the two accounts when their
    lookup succeeded. *)
Record transfer_outcome := {
  accepted : bool;
  fromBalance : option Q;
  toBalance : option Q
}.

(** [increaseClient.createAccountTransfer]; returns [result.success].
    The rows it adds to [increase_transactions] are outside [db]. *)
Definition createAccountTransfer (fromAccountId toAccountId : string)
    (api : transfer_outcome) : M bool :=
  if accepted api then
    _ <- match fromBalance api with
         | Some b => dbRun (updateAccountBalance fromAccountId b)
         | None => ret tt
         end ;;
    _ <- match toBalance api with
         | Some b => dbRun (updateAccountBalance toAccountId b)
         | None => ret tt
         end ;;
    ret true
  else ret false.

Inductive response :=
| BadRequest (error : string)
| LockJson (httpStatus : Z) (lockCheck : lock_check)
| CreateJson (result : create_result)
| Forbidden (error : string) (lockCheck : lock_check)
| TransferJson (transferred : bool).

Definition reason_is (c : lock_check) (s : string) : bool :=
  match lock_reason c with Some r => String.eqb r s | None => false end.

(** [POST /api/vault/withdraw/request] *)
Definition withdrawRequest (vaultId : string) (amt : Q) (why : option string)
    (now : Z) : M response :=
  if String.eqb vaultId "" || Qeq_bool amt 0 then
    ret (BadRequest "vaultId and amount are required")
  else
    lockCheck <- checkSoftLock vaultId amt now ;;
    if allowed lockCheck then ret (LockJson 200 lockCheck)
    else if reason_is lockCheck "cooling_period" then ret (LockJson 200 lockCheck)
    else if reason_is lockCheck "new_request" then
      result <- createWithdrawalRequest vaultId amt why now ;;
      ret (CreateJson result)
    else ret (LockJson 400 lockCheck).

(** [POST /api/vault/withdraw/execute] *)
Definition withdrawExecute (vaultId toAccountId : string) (amt : Q)
    (withdrawalRequestId : option Z) (api : transfer_outcome) (now : Z)
  : M response :=
  if String.eqb vaultId "" || String.eqb toAccountId "" || Qeq_bool amt 0 then
    ret (BadRequest "vaultId, toAccountId, and amount are required")
  else
    lockCheck <- checkSoftLock vaultId amt now ;;
    if negb (allowed lockCheck) then
      ret (Forbidden "Withdrawal not allowed yet" lockCheck)
    else
      ok <- createAccountTransfer vaultId toAccountId api ;;
      _ <- match withdrawalRequestId with
           | Some requestId =>
               if ok && negb (requestId =? 0)%Z
               then dbRun (mark_completed requestId now)
               else ret tt
           | None => ret tt
           end ;;
      ret (TransferJson ok).

(** A call to one of the two routes, with the time it is served at. *)
Inductive api_call :=
| WithdrawRequest (vaultId : string) (amt : Q) (why : option string) (now : Z)
| WithdrawExecute (vaultId toAccountId : string) (amt : Q)
    (withdrawalRequestId : option Z) (api : transfer_outcome) (now : Z).

Definition handle (c : api_call) : M response :=
  match c with
  | WithdrawRequest v a w now => withdrawRequest v a w now
  | WithdrawExecute v t a rid api now => withdrawExecute v t a rid api now
  end.

(** The store after the server handled [calls] one after the other. *)
Definition serve (calls : list api_call) (s : db) : db :=
  fold_left (fun s c => snd (handle c s)) calls s.

End Server.

(** *** The single-pending invariant *)

Definition pending_count (vaultId : string) (s : db) : nat :=
  List.length (filter (is_pending_for vaultId) (withdrawal_requests s)).

Definition single_pending (s : db) : Prop :=
  forall vaultId, (pending_count vaultId s <= 1)%nat.

End SoftLock.

(** ** Sample data *)

Module Fixtures.
Import Js.
Import Windfall.
Local Open Scope string_scope.

Definition day : Z := 86400000.

(** The time the samples are analysed at: 2023-11-14T22:13:20Z. *)
Definition today : Z := 1700000000000.

(** Servers in three zones: UTC, New York in winter (five hours behind)
    and Berlin in winter (one hour ahead). *)
Definition utc : timezone := fun _ => 0%Z.
Definition new_york : timezone := fun _ => (-5 * 3600000)%Z.
Definition berlin : timezone := fun _ => 3600000%Z.

Definition txn (amt : Q) (daysAgo : Z) (label : option string) : transaction :=
  {| t_amount := Some amt;
     t_date := Some (today - daysAgo * day)%Z;
     t_name := label;
     t_merchant_name := None |}.

(** Biweekly paychecks of $500 and one deposit of $2000. *)
Definition paychecks_and_bonus : list transaction :=
  [ txn (-500) 40 (Some "Payroll"); txn (-500) 26 (Some "Payroll");
    txn (-500) 12 (Some "Payroll"); txn (-2000) 3 (Some "Bonus") ].

(** Incomes 100, 200, 300, 400. *)
Definition four_incomes : list transaction :=
  [ txn (-100) 50 None; txn (-200) 40 None;
    txn (-300) 20 None; txn (-400) 10 None ].

(** $200 spent this week, $1110 over the four weeks before. *)
Definition quiet_week : list transaction :=
  [ txn 120 1 None; txn 80 4 None;
    txn 400 9 None; txn 310 15 None; txn 250 22 None; txn 150 30 None ].


(** A ledger with one vault and the main account, and no request yet. *)
Definition trip_vault : SoftLock.account :=
  {| SoftLock.increase_account_id := "account_vault_1";
     SoftLock.account_type := "vault";
     SoftLock.name := "Trip";
     SoftLock.balance := 1000;
     SoftLock.purpose := Some "Vacation";
     SoftLock.goal_amount := Some 2000 |}.

Definition main_account : SoftLock.account :=
  {| SoftLock.increase_account_id := "account_main_1";
     SoftLock.account_type := "main";
     SoftLock.name := "Checking";
     SoftLock.balance := 3500;
     SoftLock.purpose := None;
     SoftLock.goal_amount := None |}.

Definition ledger : SoftLock.db :=
  {| SoftLock.increase_accounts := [trip_vault; main_account];
     SoftLock.withdrawal_requests := [] |}.

(** A second vault, and a ledger where both vaults have a Pending
    request, created two days before [today]. *)
Definition car_vault : SoftLock.account :=
  {| SoftLock.increase_account_id := "account_vault_2";
     SoftLock.account_type := "vault";
     SoftLock.name := "Car";
     SoftLock.balance := 400;
     SoftLock.purpose := None;
     SoftLock.goal_amount := None |}.

Definition two_vaults_requested : SoftLock.db :=
  snd (SoftLock.createWithdrawalRequest "account_vault_2" 60 None
         (today - 2 * day)
         (snd (SoftLock.createWithdrawalRequest "account_vault_1" 100 None
                 (today - 2 * day)
                 {| SoftLock.increase_accounts :=
                      [trip_vault; car_vault; main_account];
                    SoftLock.withdrawal_requests := [] |}))).

(** The ledger after one withdrawal request on the vault. *)
Definition ledger_requested : SoftLock.db :=
  snd (SoftLock.createWithdrawalRequest "account_vault_1" 100
         (Some "car repair") today ledger).

End Fixtures.

(** ** Sample data in dollars and cents *)

Module Fixtures64.
Import Js Float64 Json.
Local Open Scope string_scope.

(** A record with the amount [n / d] dollars, dated [daysAgo] days before
    [Fixtures.today]. *)
Definition txn (n d : Z) (daysAgo : Z) (label : option string) : transaction :=
  {| t_amount := VNumber (dec n d);
     t_date := Some (Fixtures.today - daysAgo * Fixtures.day)%Z;
     t_name := label;
     t_merchant_name := None |}.

(** The same, with a date that does not parse. *)
Definition undated (n d : Z) : transaction :=
  {| t_amount := VNumber (dec n d);
     t_date := None;
     t_name := None;
     t_merchant_name := None |}.

(** A record with the amount [v], dated [daysAgo] days before [today]. *)
Definition with_amount (v : value) (daysAgo : Z) : transaction :=
  {| t_amount := v;
     t_date := Some (Fixtures.today - daysAgo * Fixtures.day)%Z;
     t_name := None;
     t_merchant_name := None |}.

(** Biweekly paychecks of $500 and one deposit of $2000. *)
Definition paychecks_and_bonus : list transaction :=
  [ txn (-500) 1 40 (Some "Payroll"); txn (-500) 1 26 (Some "Payroll");
    txn (-500) 1 12 (Some "Payroll"); txn (-2000) 1 3 (Some "Bonus") ].

(** Two old credits of $100.10 and a recent one of $150.15, which is one
    and a half times $100.10 to the cent. *)
Definition cents_on_the_threshold : list transaction :=
  [ txn (-10010) 100 50 None; txn (-10010) 100 40 None;
    txn (-15015) 100 2 None ].

(** Three dated credits and three credits whose date does not parse. *)
Definition with_undated : list transaction :=
  [ txn (-100) 1 60 None; txn (-100) 1 45 None; txn (-200) 1 2 None;
    undated (-1000) 1; undated (-1000) 1; undated (-1000) 1 ].

(** $30.20 spent this week, $70.40 twice in the four weeks before: the
    average is $35.20 and the underspend $5.00 to the cent. *)
Definition five_under_in_cents : list transaction :=
  [ txn 3020 100 2 None; txn 7040 100 10 None; txn 7040 100 25 None ].

(** $200 spent this week, $820 over the four weeks before: $5 under the
    average, in whole dollars. *)
Definition five_under : list transaction :=
  [ txn 200 1 2 None; txn 420 1 10 None; txn 400 1 25 None ].

(** $200 spent this week, $1110 over the four weeks before. *)
Definition quiet_week : list transaction :=
  [ txn 120 1 1 None; txn 80 1 4 None;
    txn 400 1 9 None; txn 310 1 15 None; txn 250 1 22 None; txn 150 1 30 None ].

(** [quiet_week] with a record whose amount is [true], dated yesterday. *)
Definition quiet_week_and_true : list transaction :=
  with_amount (VBoolean true) 1 :: quiet_week.

End Fixtures64.

(** ** Prompts and the combined analysis *)

Module Prompts.
Import Js.

(** A string given by its UTF-8 bytes. *)
Definition utf8 (bytes : list nat) : string :=
  fold_right (fun b s => String (ascii_of_nat b) s) EmptyString bytes.

(** The dash of the windfall message and the emoji of the prompts, byte
    for byte as the source file holds them: the UTF-8 bytes of U+2014,
    U+1F4B0, U+1F3AF and U+1F4AA read as Windows-1252 text and written
    out as UTF-8 again. *)
Definition em_dash : string :=
  utf8 [195; 162; 226; 130; 172; 226; 128; 157]%nat.
Definition money_bag : string :=
  utf8 [195; 176; 197; 184; 226; 128; 153; 194; 176]%nat.
Definition direct_hit : string :=
  utf8 [195; 176; 197; 184; 197; 189; 194; 175]%nat.
Definition flexed_biceps : string :=
  utf8 [195; 176; 197; 184; 226; 128; 153; 194; 170]%nat.

(** One entry of [options]; the sweep prompt has no [percentage]. *)
Record prompt_option := {
  label : string;
  value : Q;
  percentage : option Z
}.

Record windfall_prompt := {
  wp_title : string;
  wp_message : string;
  wp_options : list prompt_option;
  wp_impact : string
}.

(** [generateWindfallPrompt(windfallData)] *)
Definition generateWindfallPrompt (windfallData : Windfall.windfall)
  : windfall_prompt :=
  let amount := Windfall.amount windfallData in
  let source := Windfall.source windfallData in
  let suggestedSavings := Windfall.suggestedSavings windfallData in
  let multiplier := Windfall.multiplier windfallData in
  {| wp_title := (money_bag ++ " Windfall Detected!")%string;
     wp_message :=
       ("I noticed you received $" ++ toFixed 2 amount ++ " from " ++ source
        ++ " " ++ em_dash ++ " that's " ++ multiplier
        ++ "x your usual income!" ++ nl ++ nl
        ++ "Would you like to save 20% ($" ++ toFixed 2 suggestedSavings
        ++ ") toward your goals?")%string;
     wp_options :=
       [ {| label := "Save 20%"; value := suggestedSavings;
            percentage := Some 20%Z |};
         {| label := "Save 10%"; value := suggestedSavings / 2;
            percentage := Some 10%Z |};
         {| label := "Save 30%"; value := suggestedSavings * 1.5;
            percentage := Some 30%Z |};
         {| label := "No thanks"; value := 0; percentage := Some 0%Z |} ];
     wp_impact := "This could cover 6 months of your average spending!" |}.

Record sweep_prompt := {
  sp_title : string;
  sp_message : string;
  sp_options : list prompt_option;
  sp_tone : string;
  sp_emoji : string
}.

(** [generateSweepPrompt(sweepData)] *)
Definition generateSweepPrompt (sweepData : Sweep.sweep) : sweep_prompt :=
  let unspentAmount := Sweep.sw_unspentAmount sweepData in
  let suggestedSavings := Sweep.sw_suggestedSavings sweepData in
  let avgWeeklySpending := Sweep.sw_avgWeeklySpending sweepData in
  {| sp_title := (direct_hit ++ " Smart Sweep Available!")%string;
     sp_message :=
       ("Great self-control! You spent $" ++ toFixed 2 unspentAmount
        ++ " less than your usual $" ++ toFixed 2 avgWeeklySpending
        ++ "/week." ++ nl ++ nl
        ++ "Want to stash some of that win?")%string;
     sp_options :=
       [ {| label := ("Save $" ++ toFixed 2 suggestedSavings)%string;
            value := suggestedSavings; percentage := None |};
         {| label := ("Save $" ++ toFixed 2 (suggestedSavings / 2))%string;
            value := suggestedSavings / 2; percentage := None |};
         {| label := "Keep it all"; value := 0; percentage := None |} ];
     sp_tone := "encouraging";
     sp_emoji := flexed_biceps |}.

(** An entry of [opportunities]: its [type] is 'windfall' or 'sweep'. *)
Inductive opportunity :=
| WindfallOpportunity (priority : Z) (data : Windfall.windfall)
    (prompt : windfall_prompt)
| SweepOpportunity (priority : Z) (data : Sweep.sweep) (prompt : sweep_prompt).

Definition op_type (o : opportunity) : string :=
  match o with
  | WindfallOpportunity _ _ _ => "windfall"
  | SweepOpportunity _ _ _ => "sweep"
  end.

Definition op_priority (o : opportunity) : Z :=
  match o with
  | WindfallOpportunity p _ _ => p
  | SweepOpportunity p _ _ => p
  end.

(** [data.suggestedSavings] of an entry. *)
Definition op_suggestedSavings (o : opportunity) : Q :=
  match o with
  | WindfallOpportunity _ w _ => Windfall.suggestedSavings w
  | SweepOpportunity _ s _ => Sweep.sw_suggestedSavings s
  end.

Record analysis := {
  opportunities : list opportunity;
  windfallDetected : bool;
  sweepAvailable : bool;
  totalPotentialSavings : Q
}.

(** [runTriplePlayAnalysis(transactions)]; both detectors read the clock at
    [now]. *)
Definition runTriplePlayAnalysis (now : Z)
    (transactions : list Windfall.transaction) : analysis :=
  let windfall := Windfall.detectWindfall now transactions in
  let sweep := Sweep.analyzeWeeklySweep now transactions in
  {| opportunities :=
       (match windfall with
        | Windfall.IsWindfall w =>
            [WindfallOpportunity 1 w (generateWindfallPrompt w)]
        | Windfall.NotWindfall _ => []
        end)
       ++
       (match sweep with
        | Sweep.HasSweep sw => [SweepOpportunity 2 sw (generateSweepPrompt sw)]
        | Sweep.NoSweep _ => []
        end);
     windfallDetected := Windfall.isWindfall windfall;
     sweepAvailable := Sweep.hasSweepOpportunity sweep;
     totalPotentialSavings :=
       (match windfall with
        | Windfall.IsWindfall w => Windfall.suggestedSavings w
        | Windfall.NotWindfall _ => 0
        end)
       +
       (match sweep with
        | Sweep.HasSweep sw => Sweep.sw_suggestedSavings sw
        | Sweep.NoSweep _ => 0
        end) |}.

End Prompts.

(** ** The status route *)

Module StatusRoute.
Import Js.
Import SoftLock.

(** The body of the answer: no active request, or the newest Pending
    request of the vault with its countdown. *)
Inductive status_response :=
| NoActiveRequest (message : string)
| ActiveRequest (requestId : Z) (amt : Q) (why : string)
    (impactMessage : string) (createdAt : Z) (hoursRemaining : Z)
    (canWithdraw : bool).

(** [GET /api/vault/withdraw/status/:vaultId] *)
Definition withdrawStatus {tz : timezone} (vaultId : string) (now : Z)
  : M status_response :=
  request <- dbGet (select_pending vaultId) ;;
  match request with
  | None => ret (NoActiveRequest "No active withdrawal request")
  | Some request =>
      let hours := hoursSinceRequest now request in
      let hoursRemaining := ceil (24 - hours) in
      ret (ActiveRequest (id request) (amount request) (reason request)
             (impact_message request) (created_at request)
             (Z.max 0 hoursRemaining) (Qle_bool 24 hours))
  end.

End StatusRoute.

(** ** Ranks in a list of incomes *)

Module Rank.
Import Js.

(** How many elements of [l] are strictly below [m]. *)
Definition below (m : Q) (l : list Q) : nat :=
  List.length (filter (fun x => Qltb x m) l).

(** How many elements of [l] are at most [m]. *)
Definition upto (m : Q) (l : list Q) : nat :=
  List.length (filter (fun x => Qle_bool x m) l).

End Rank.

(** ** The request log *)

Module Ledger.
Import SoftLock.

(** The fields of a request that are fixed when it is created. *)
Definition core (r : withdrawal_request)
  : Z * string * Q * string * string * Z :=
  (id r, vault_id r, amount r, reason r, impact_message r, created_at r).

(** A row and what it may have become later: the same request, Pending as
    before or completed. *)
Definition ages_to (r r' : withdrawal_request) : Prop :=
  core r = core r' /\
  (status r' = status r \/ status r' = "completed"%string).

(** The id and type of every account, in table order. *)
Definition account_keys (s : db) : list (string * string) :=
  map (fun a => (increase_account_id a, account_type a)) (increase_accounts s).

(** No two requests share an id. *)
Definition unique_ids (s : db) : Prop :=
  NoDup (map id (withdrawal_requests s)).

(** Every request names an account of type 'vault'. *)
Definition requests_of_vaults (s : db) : Prop :=
  forall r, In r (withdrawal_requests s) ->
    exists a, In a (increase_accounts s) /\
              increase_account_id a = vault_id r /\
              account_type a = "vault"%string.

End Ledger.

(** * Properties *)

(** ** Facts about the JavaScript primitives *)

Module JsFacts.
Import Js.

Lemma Qltb_lt (x y : Q) : Qltb x y = true <-> x < y.
Proof.
  unfold Qltb. rewrite negb_true_iff. split; intro H.
  - apply Qnot_le_lt. intro L. apply Qle_bool_iff in L. congruence.
  - destruct (Qle_bool y x) eqn:E; [|reflexivity].
    apply Qle_bool_iff in E. exfalso. exact (Qlt_not_le _ _ H E).
Qed.

Lemma Qltb_ge (x y : Q) : Qltb x y = false <-> y <= x.
Proof.
  unfold Qltb. rewrite negb_false_iff. apply Qle_bool_iff.
Qed.

Lemma Qltb_comp (x x' y y' : Q) : x == x' -> y == y' -> Qltb x y = Qltb x' y'.
Proof.
  intros Hx Hy. unfold Qltb. f_equal. apply Qleb_comp; assumption.
Qed.

End JsFacts.

(** ** The sort behind the median *)

Module SortFacts.
Import Js Windfall JsFacts.

Lemma insert_perm (x : Q) (l : list Q) : Permutation (x :: l) (insert x l).
Proof.
  induction l as [|y l IH]; simpl.
  - apply Permutation_refl.
  - destruct (Qle_bool x y).
    + apply Permutation_refl.
    + eapply perm_trans; [apply perm_swap|]. apply perm_skip, IH.
Qed.

Lemma sort_perm (l : list Q) : Permutation l (sort l).
Proof.
  induction l as [|x l IH]; simpl.
  - constructor.
  - eapply perm_trans; [apply perm_skip, IH|]. apply insert_perm.
Qed.

Lemma sort_length (l : list Q) : List.length (sort l) = List.length l.
Proof. symmetry. apply Permutation_length, sort_perm. Qed.

Lemma insert_hdrel (a x : Q) (l : list Q) :
  HdRel Qle a l -> a <= x -> HdRel Qle a (insert x l).
Proof.
  intros H Hax. destruct l as [|y l]; simpl.
  - constructor. exact Hax.
  - destruct (Qle_bool x y); constructor.
    + exact Hax.
    + inversion H; assumption.
Qed.

Lemma insert_sorted (x : Q) (l : list Q) :
  Sorted Qle l -> Sorted Qle (insert x l).
Proof.
  induction 1 as [|y l Hs IH Hd]; simpl.
  - repeat constructor.
  - destruct (Qle_bool x y) eqn:E.
    + constructor; [constructor; assumption|].
      constructor. apply Qle_bool_iff. exact E.
    + constructor; [exact IH|].
      apply insert_hdrel; [exact Hd|].
      apply Qlt_le_weak, Qnot_le_lt. intro L.
      apply Qle_bool_iff in L. congruence.
Qed.

Lemma sort_sorted (l : list Q) : Sorted Qle (sort l).
Proof.
  induction l as [|x l IH]; simpl.
  - constructor.
  - apply insert_sorted, IH.
Qed.

(** In a sorted list a later element is no smaller than an earlier one. *)
Lemma sorted_nth_le (l : list Q) :
  Sorted Qle l ->
  forall i j, (i <= j)%nat -> (j < List.length l)%nat ->
  nth i l 0 <= nth j l 0.
Proof.
  intro Hs. apply Sorted_StronglySorted in Hs.
  2:{ intros a b c. apply Qle_trans. }
  induction Hs as [|x l Hs IH Hall]; intros i j Hij Hj; simpl in Hj.
  - lia.
  - destruct i as [|i], j as [|j]; simpl.
    + apply Qle_refl.
    + rewrite Forall_forall in Hall. apply Hall, nth_In. lia.
    + lia.
    + apply IH; lia.
Qed.

End SortFacts.

(** ** Windfall detection *)

Module WindfallFacts.
Import Js Windfall JsFacts SortFacts.

Lemma thirtyDaysAgo_days (now : Z) :
  thirtyDaysAgo now = (now - 30 * 86400000)%Z.
Proof. unfold thirtyDaysAgo. lia. Qed.

(** The filter predicate of the source says exactly [qualifies]. *)
Lemma isRecentLargeDeposit_spec (now : Z) (med : Q) (t : transaction) :
  isRecentLargeDeposit now med t = true <-> qualifies now med t.
Proof.
  unfold isRecentLargeDeposit, qualifies, date_ge, absAmount, lt0.
  rewrite thirtyDaysAgo_days.
  destruct (t_amount t) as [q|]; simpl.
  - rewrite !andb_true_iff, !Qltb_lt. split.
    + intros [[Hq Hm] Hd]. destruct (t_date t) as [ms|]; [|discriminate].
      exists q, ms. apply Z.leb_le in Hd. repeat split; assumption.
    + intros (q' & ms & Ha & Hq & Hm & Hd & Hw).
      injection Ha as <-. rewrite Hd. apply Z.leb_le in Hw.
      repeat split; assumption.
  - split; [discriminate|]. intros (q & ms & Ha & _). discriminate.
Qed.

(** The head of a filtered list is the first element that passes. *)
Lemma filter_head {A : Type} (f : A -> bool) (l : list A) (x : A) (rest : list A) :
  filter f l = x :: rest ->
  exists pre post,
    l = pre ++ x :: post /\ f x = true /\ (forall u, In u pre -> f u = false).
Proof.
  induction l as [|a l IH]; simpl; [discriminate|].
  destruct (f a) eqn:E; intro H.
  - injection H as -> _. exists [], l. repeat split; [exact E|].
    intros u [].
  - destruct (IH H) as (pre & post & -> & Hx & Hpre).
    exists (a :: pre), post. repeat split; [exact Hx|].
    intros u [<-|Hu]; [exact E|apply Hpre, Hu].
Qed.

Lemma detectWindfall_enough (now : Z) (transactions : list transaction) :
  (2 <= List.length (incomeTransactions transactions))%nat ->
  detectWindfall now transactions =
    match recentLargeDeposits now (median (incomeTransactions transactions)) transactions with
    | w :: _ => IsWindfall (report w (median (incomeTransactions transactions)))
    | [] => NotWindfall "No recent large deposits detected"
    end.
Proof.
  intro H. unfold detectWindfall.
  destruct (List.length (incomeTransactions transactions) <? 2)%nat eqn:E.
  - apply Nat.ltb_lt in E. lia.
  - reflexivity.
Qed.

(** C5: for an income list of even length [2 * k], the baseline computed
    by [detectWindfall] is the element at 0-based index [k] of the
    ascending-sorted incomes, and it is not the average of the two middle
    elements whenever those differ. *)
Theorem median_even_length_is_upper_middle
    (now : Z) (transactions : list transaction) (k : nat) :
  List.length (incomeTransactions transactions) = (2 * k)%nat ->
  (1 <= k)%nat ->
  Sorted Qle (sort (incomeTransactions transactions)) /\
  Permutation (incomeTransactions transactions)
              (sort (incomeTransactions transactions)) /\
  median (incomeTransactions transactions) = nth k (sort (incomeTransactions transactions)) 0 /\
  (forall w, detectWindfall now transactions = IsWindfall w ->
             medianIncome w = nth k (sort (incomeTransactions transactions)) 0) /\
  (nth (k - 1) (sort (incomeTransactions transactions)) 0
     < nth k (sort (incomeTransactions transactions)) 0 ->
   ~ median (incomeTransactions transactions) ==
     (nth (k - 1) (sort (incomeTransactions transactions)) 0
      + nth k (sort (incomeTransactions transactions)) 0) / 2).
Proof.
  intros Hlen Hk.
  assert (Hmed : median (incomeTransactions transactions)
                 = nth k (sort (incomeTransactions transactions)) 0).
  { unfold median. rewrite Hlen, Nat.mul_comm, Nat.div_mul by lia.
    reflexivity. }
  split; [apply sort_sorted|].
  split; [apply sort_perm|].
  split; [exact Hmed|].
  split.
  - intros w Hw. rewrite detectWindfall_enough in Hw by lia.
    destruct (recentLargeDeposits now (median (incomeTransactions transactions)) transactions);
      [discriminate|].
    injection Hw as <-. simpl. exact Hmed.
  - rewrite Hmed. intros Hlt Heq.
    set (a := nth (k - 1) (sort (incomeTransactions transactions)) 0) in *.
    set (b := nth k (sort (incomeTransactions transactions)) 0) in *.
    assert (Hb : b * 2 == a + b).
    { rewrite Heq at 1. field. }
    apply (Qlt_irrefl (a + b)).
    rewrite <- Hb at 2.
    setoid_replace (b * 2) with (b + b) by ring.
    apply Qplus_lt_l. exact Hlt.
Qed.

Lemma median_even_length_witness :
  median (incomeTransactions Fixtures.four_incomes)
  = nth 2 (sort (incomeTransactions Fixtures.four_incomes)) 0.
Proof.
  apply (median_even_length_is_upper_middle 0 Fixtures.four_incomes 2).
  - reflexivity.
  - lia.
Defined.

Example median_100_200_300_400 :
  median [100; 200; 300; 400] = 300 /\ ~ 300 == (200 + 300) / 2.
Proof. split; [reflexivity|]. intro H. discriminate H. Qed.

(** The source label falls back from the name to the merchant to
    ["Unknown"]. *)
Lemma report_source (w : deposit) (med : Q) :
  source (report w med) =
    if truthy (d_name w) then or_else (d_name w) EmptyString
    else if truthy (d_merchant w) then or_else (d_merchant w) EmptyString
    else "Unknown"%string.
Proof.
  unfold report; simpl.
  destruct (d_name w) as [[|c n]|]; simpl; try reflexivity;
    destruct (d_merchant w) as [[|c' m]|]; reflexivity.
Qed.

(** The explanation is the same whatever the name and merchant are. *)
Lemma report_reason_ignores_source (w w' : deposit) (med : Q) :
  d_amount w = d_amount w' -> reason (report w med) = reason (report w' med).
Proof. intro H. unfold report; simpl. rewrite H. reflexivity. Qed.

(** C6: on paychecks of $500 and a $2000 deposit named "Bonus" the
    reported source label is "Bonus" and the multiplier is printed with
    one decimal, yet the explanation names "undefined" in place of the
    source label. *)
Theorem windfall_reason_prints_undefined :
  exists w,
    detectWindfall Fixtures.today Fixtures.paychecks_and_bonus = IsWindfall w /\
    source w = "Bonus"%string /\
    multiplier w = "4.0"%string /\
    reason w = "Detected undefined: $2000.00 (4.0x your typical income)"%string.
Proof.
  eexists. split; [vm_compute; reflexivity|].
  repeat split.
Qed.

End WindfallFacts.

(** ** Weekly sweep *)

Module SweepFacts.
Import Js Windfall Sweep JsFacts.



Lemma fold_sum_acc (l : list transaction) (acc : Q) :
  fold_left (fun sum t => sum + valueOf (t_amount t)) l acc
  == acc + sumAmounts l.
Proof.
  unfold sumAmounts. revert acc.
  induction l as [|t l IH]; intro acc; simpl.
  - ring.
  - rewrite IH. rewrite (IH (0 + valueOf (t_amount t))). ring.
Qed.

Lemma sumAmounts_cons (t : transaction) (l : list transaction) :
  sumAmounts (t :: l) == valueOf (t_amount t) + sumAmounts l.
Proof.
  unfold sumAmounts at 1. simpl. rewrite fold_sum_acc. ring.
Qed.





Example quiet_week_sweep :
  exists s,
    analyzeWeeklySweep Fixtures.today Fixtures.quiet_week = HasSweep s /\
    sw_thisWeekSpending s == 200 /\ sw_avgWeeklySpending s == 277.5 /\
    sw_unspentAmount s == 77.5 /\ sw_suggestedSavings s == 38.75.
Proof. eexists. split; [vm_compute; reflexivity|]. repeat split. Qed.



End SweepFacts.

(** ** Filtering a filtered list *)

Module NormalizerFacts.
Import Js Windfall Sweep JsFacts.

Lemma filter_absorb {A : Type} (f g : A -> bool) (l : list A) :
  (forall x, f x = true -> g x = true) ->
  filter f (filter g l) = filter f l.
Proof.
  intro H. induction l as [|a l IH]; simpl; [reflexivity|].
  destruct (g a) eqn:G; simpl.
  - rewrite IH. reflexivity.
  - destruct (f a) eqn:F; [|exact IH].
    apply H in F. congruence.
Qed.

End NormalizerFacts.

(** ** Facts about binary64 comparisons *)

Module Float64Facts.
Import Js Float64 Json.

Lemma ltb_irrefl (x : float) : ltb x x = false.
Proof.
  unfold ltb, SFltb.
  destruct x as [s|s| |s m e]; simpl; try reflexivity.
  - destruct s; reflexivity.
  - destruct s; rewrite Z.compare_refl, Pos.compare_cont_refl; reflexivity.
Qed.

(** [t.amount < 0] holds exactly of the negative numbers: a value that is
    not a number reads as NaN, 0 or 1. *)
Lemma isCredit_credit (t : transaction) :
  isCredit t = true <-> Spec64.credit t.
Proof.
  unfold isCredit, Spec64.credit. split.
  - destruct (t_amount t) as [| |[|]|[s|[|]| |[|] m e]]; simpl;
      try discriminate; intros _; eexists; split; try reflexivity; exact I.
  - intros (x & -> & Hx).
    destruct x as [s|[|]| |[|] m e]; simpl in Hx; try contradiction;
      reflexivity.
Qed.

(** [t.amount > 0] holds exactly of the positive numbers and of [true]. *)
Lemma isDebit_debit (t : transaction) :
  isDebit t = true <-> Spec64.debit t.
Proof.
  unfold isDebit, Spec64.debit. split.
  - destruct (t_amount t) as [| |[|]|[s|[|]| |[|] m e]]; simpl;
      try discriminate; intros _;
      try (right; reflexivity);
      left; eexists; split; try reflexivity; exact I.
  - intros [(x & -> & Hx)| ->].
    + destruct x as [s|[|]| |[|] m e]; simpl in Hx; try contradiction;
        reflexivity.
    + reflexivity.
Qed.

Lemma credit_numeric (t : transaction) :
  isCredit t = true -> Spec64.numericAmount t = true.
Proof.
  unfold isCredit, Spec64.numericAmount.
  destruct (t_amount t) as [| |[|]|[s|s| |s m e]]; simpl;
    try discriminate; reflexivity.
Qed.

(** Above 0 are only numbers and [true]. *)
Lemma debit_countable (t : transaction) :
  isDebit t = true -> Spec64.countableAmount t = true.
Proof.
  unfold isDebit, Spec64.countableAmount, Spec64.numericAmount.
  destruct (t_amount t) as [| |[|]|[s|s| |s m e]]; simpl;
    try discriminate; reflexivity.
Qed.

Lemma records_map_Some (l : list transaction) : records (map Some l) = Some l.
Proof.
  induction l as [|t l IH]; simpl; [reflexivity|]. rewrite IH. reflexivity.
Qed.

Lemma records_null (l : list element) : In None l -> records l = None.
Proof.
  induction l as [|[t|] l IH]; simpl.
  - intros [].
  - intros [H|H]; [discriminate|]. rewrite (IH H). reflexivity.
  - reflexivity.
Qed.

Lemma records_some (l : list element) (ts : list transaction) :
  records l = Some ts -> l = map Some ts.
Proof.
  revert ts. induction l as [|[t|] l IH]; simpl; intros ts H.
  - injection H as <-. reflexivity.
  - destruct (records l) as [ts'|]; [|discriminate].
    injection H as <-. simpl. rewrite (IH ts' eq_refl). reflexivity.
  - discriminate.
Qed.

End Float64Facts.

(** ** The windfall threshold on binary64 amounts *)

Module Windfall64Facts.
Import Js Float64 Json Windfall64 Spec64 Float64Facts.

(** The filter predicate of the source says exactly [qualifies]. *)
Lemma isRecentLargeDeposit_is_qualifies (now : Z) (med : float) (t : transaction) :
  isRecentLargeDeposit now med t = true <-> qualifies now med t.
Proof.
  unfold isRecentLargeDeposit, qualifies, date_ge, Windfall.thirtyDaysAgo.
  rewrite !andb_true_iff, isCredit_credit. split.
  - intros [[Hc Hm] Hd]. destruct (t_date t) as [ms|]; [|discriminate].
    apply Z.leb_le in Hd. split; [exact Hc|]. split; [exact Hm|].
    exists ms. split; [reflexivity|lia].
  - intros (Hc & Hm & ms & -> & Hw). repeat split; try assumption.
    apply Z.leb_le. lia.
Qed.

Lemma isRecentLargeDeposit_not_qualifies (now : Z) (med : float) (t : transaction) :
  isRecentLargeDeposit now med t = false <-> ~ qualifies now med t.
Proof.
  rewrite <- isRecentLargeDeposit_is_qualifies.
  destruct (isRecentLargeDeposit now med t); split; congruence.
Qed.

Lemma detect_enough (now : Z) (transactions : list transaction) :
  (2 <= List.length (incomeTransactions transactions))%nat ->
  detectWindfall now (map Some transactions) =
    match recentLargeDeposits now (median (incomeTransactions transactions))
            transactions with
    | w :: _ => IsWindfall (report w (median (incomeTransactions transactions)))
    | [] => NotWindfall "No recent large deposits detected"
    end.
Proof.
  intro H. unfold detectWindfall, detect. rewrite records_map_Some.
  destruct (List.length (incomeTransactions transactions) <? 2)%nat eqn:E.
  - apply Nat.ltb_lt in E. lia.
  - reflexivity.
Qed.

(** C4, as the code has it: with at least two incomes and baseline [M],
    the deposits the detector keeps are exactly the records whose amount
    is a negative number, whose date is no earlier than 30 days before
    now and whose absolute amount is above the double [M * 1.5]; a
    windfall is reported exactly when one exists, and it is the first
    one.  A deposit equal to that double is not kept and every deposit
    above it is; a date exactly 30 days before now is kept and one 31
    days before is not. *)
Theorem windfall_threshold_is_the_rounded_product
    (now : Z) (transactions : list transaction) :
  (2 <= List.length (incomeTransactions transactions))%nat ->
  (forall t, In t (filter (isRecentLargeDeposit now
                             (median (incomeTransactions transactions)))
                          transactions)
             <-> In t transactions
                 /\ qualifies now (median (incomeTransactions transactions)) t) /\
  (isWindfall (detectWindfall now (map Some transactions)) = true
   <-> exists t, In t transactions
                 /\ qualifies now (median (incomeTransactions transactions)) t) /\
  (forall w, detectWindfall now (map Some transactions) = IsWindfall w ->
     exists pre t post,
       transactions = pre ++ t :: post /\
       qualifies now (median (incomeTransactions transactions)) t /\
       (forall u, In u pre ->
                  ~ qualifies now (median (incomeTransactions transactions)) u) /\
       w = report (toDeposit t) (median (incomeTransactions transactions))) /\
  (forall t x ms,
     t_amount t = VNumber x -> negative x ->
     t_date t = Some ms -> (now - 30 * 86400000 <= ms)%Z ->
     (abs x = mul (median (incomeTransactions transactions)) one_and_a_half ->
      ~ qualifies now (median (incomeTransactions transactions)) t) /\
     (ltb (mul (median (incomeTransactions transactions)) one_and_a_half)
          (abs x) = true ->
      qualifies now (median (incomeTransactions transactions)) t)) /\
  (forall t x,
     t_amount t = VNumber x -> negative x ->
     ltb (mul (median (incomeTransactions transactions)) one_and_a_half)
         (abs x) = true ->
     (t_date t = Some (now - 30 * 86400000)%Z ->
      qualifies now (median (incomeTransactions transactions)) t) /\
     (t_date t = Some (now - 31 * 86400000)%Z ->
      ~ qualifies now (median (incomeTransactions transactions)) t)).
Proof.
  intro Hlen.
  set (M := median (incomeTransactions transactions)).
  assert (Hex : forall l,
             (exists t, In t l /\ qualifies now M t)
             <-> filter (isRecentLargeDeposit now M) l <> []).
  { intro l. split.
    - intros (t & Hin & Hq) Hnil.
      assert (Hf : In t (filter (isRecentLargeDeposit now M) l)).
      { apply filter_In. split; [exact Hin|].
        apply isRecentLargeDeposit_is_qualifies, Hq. }
      rewrite Hnil in Hf. exact Hf.
    - intro Hne.
      destruct (filter (isRecentLargeDeposit now M) l) as [|t r] eqn:E;
        [congruence|].
      assert (Hf : In t (filter (isRecentLargeDeposit now M) l))
        by (rewrite E; left; reflexivity).
      apply filter_In in Hf. destruct Hf as [Hin Hq].
      exists t. split; [exact Hin|].
      apply isRecentLargeDeposit_is_qualifies, Hq. }
  assert (Habs : forall t x, t_amount t = VNumber x -> absAmount t = abs x).
  { intros t x Ha. unfold absAmount. rewrite Ha. reflexivity. }
  split; [|split; [|split; [|split]]].
  - intro t. rewrite filter_In, isRecentLargeDeposit_is_qualifies. reflexivity.
  - rewrite detect_enough by exact Hlen. fold M.
    rewrite Hex. unfold recentLargeDeposits.
    destruct (filter (isRecentLargeDeposit now M) transactions); simpl;
      split; congruence.
  - intros w Hw. rewrite detect_enough in Hw by exact Hlen.
    fold M in Hw. unfold recentLargeDeposits in Hw.
    destruct (filter (isRecentLargeDeposit now M) transactions) as [|t r] eqn:E;
      simpl in Hw; [discriminate|].
    injection Hw as <-.
    destruct (WindfallFacts.filter_head _ _ _ _ E) as (pre & post & Hl & Ht & Hpre).
    exists pre, t, post.
    split; [exact Hl|].
    split; [apply isRecentLargeDeposit_is_qualifies, Ht|].
    split; [|reflexivity].
    intros u Hu. apply isRecentLargeDeposit_not_qualifies, Hpre, Hu.
  - intros t x ms Ha Hx Hd Hw. split.
    + intros Heq (_ & Hm & _).
      rewrite (Habs t x Ha), Heq, ltb_irrefl in Hm. discriminate.
    + intro Hm. split; [exists x; auto|].
      split; [rewrite (Habs t x Ha); exact Hm|]. exists ms. auto.
  - intros t x Ha Hx Hm. split.
    + intro Hd. split; [exists x; auto|].
      split; [rewrite (Habs t x Ha); exact Hm|].
      exists (now - 30 * 86400000)%Z. split; [exact Hd|lia].
    + intros Hd (_ & _ & ms & Hd' & Hw).
      rewrite Hd in Hd'. injection Hd' as <-. lia.
Qed.

(** A date given without a time of day is read as midnight UTC.  Such a
    date, 30 calendar days before the day of [now], passes the window test
    only when [now] is itself at midnight. *)
Remark date_only_thirty_days_before
    (now : Z) (med : float) (t : transaction) :
  credit t ->
  ltb (mul med one_and_a_half) (absAmount t) = true ->
  t_date t = Some (86400000 * (now / 86400000) - 30 * 86400000)%Z ->
  (qualifies now med t <-> (now mod 86400000 = 0)%Z).
Proof.
  intros Hc Hm Hd.
  pose proof (Z.div_mod now 86400000 ltac:(lia)) as Hdm.
  pose proof (Z.mod_pos_bound now 86400000 ltac:(lia)) as Hb.
  split.
  - intros (_ & _ & ms & Hd' & Hw).
    assert (Hms : ms = (86400000 * (now / 86400000) - 30 * 86400000)%Z)
      by congruence.
    rewrite Hms in Hw. lia.
  - intro H0. split; [exact Hc|]. split; [exact Hm|].
    exists (86400000 * (now / 86400000) - 30 * 86400000)%Z.
    split; [exact Hd|lia].
Qed.

Lemma windfall_threshold_witness :
  (2 <= List.length (incomeTransactions Fixtures64.paychecks_and_bonus))%nat /\
  (isWindfall (detectWindfall Fixtures.today
                 (map Some Fixtures64.paychecks_and_bonus)) = true
   <-> exists t,
         In t Fixtures64.paychecks_and_bonus /\
         qualifies Fixtures.today
           (median (incomeTransactions Fixtures64.paychecks_and_bonus)) t).
Proof.
  assert (H : (2 <= List.length (incomeTransactions Fixtures64.paychecks_and_bonus))%nat)
    by (vm_compute; lia).
  split; [exact H|].
  exact (proj1 (proj2 (windfall_threshold_is_the_rounded_product
                         Fixtures.today Fixtures64.paychecks_and_bonus H))).
Defined.

(** A deposit of $150.15 on a median income of $100.10 is one and a half
    times the median to the cent, and it is reported as a windfall: the
    double [100.1 * 1.5] is 150.14999999999998, below the double 150.15. *)
Lemma windfall_at_one_and_a_half_times_the_median :
  median (incomeTransactions Fixtures64.cents_on_the_threshold) = dec 10010 100 /\
  (15015 # 100) == 1.5 * (10010 # 100) /\
  exact (mul (dec 10010 100) one_and_a_half) < exact (dec 15015 100) /\
  exists w,
    detectWindfall Fixtures.today (map Some Fixtures64.cents_on_the_threshold)
    = IsWindfall w /\
    amount w = dec 15015 100 /\
    medianIncome w = dec 10010 100.
Proof.
  split; [vm_compute; reflexivity|].
  split; [reflexivity|].
  split; [reflexivity|].
  eexists. split; [vm_compute; reflexivity|].
  split; reflexivity.
Qed.

(** On a median of $500 a deposit one cent above $750 is above the
    product. *)
Example one_cent_above_the_product :
  ltb (mul (of_Z 500) one_and_a_half)
      (add (mul (of_Z 500) one_and_a_half) (dec 1 100)) = true.
Proof. vm_compute. reflexivity. Qed.

(** From 2^53 dollars on, one cent more is no more. *)
Example one_cent_is_absorbed :
  add (mul (of_Z (2 ^ 53)) one_and_a_half) (dec 1 100)
  = mul (of_Z (2 ^ 53)) one_and_a_half.
Proof. vm_compute. reflexivity. Qed.

End Windfall64Facts.

(** ** The sweep threshold on binary64 amounts *)

Module Sweep64Facts.
Import Js Float64 Json Sweep64 Spec64 Float64Facts.

Lemma inLast4Weeks_is_baselineDebit (now : Z) (t : transaction) :
  inLast4Weeks now t = true <-> baselineDebit now t.
Proof.
  unfold inLast4Weeks, baselineDebit, date_ge, date_lt,
    Sweep.fiveWeeksAgo, Sweep.oneWeekAgo.
  rewrite !andb_true_iff, isDebit_debit. split.
  - intros [[Ha Hlo] Hhi].
    destruct (t_date t) as [ms|]; [|discriminate].
    apply Z.leb_le in Hlo. apply Z.ltb_lt in Hhi.
    split; [exact Ha|]. exists ms. split; [reflexivity|lia].
  - intros (Ha & ms & -> & Hlo & Hhi).
    repeat split; [exact Ha|apply Z.leb_le; lia|apply Z.ltb_lt; lia].
Qed.

Lemma no_baseline_debit (now : Z) (transactions : list transaction) :
  last4WeeksTransactions now transactions = [] <->
  (forall t, In t transactions -> ~ baselineDebit now t).
Proof.
  unfold last4WeeksTransactions. split.
  - intros Hnil t Hin Hb.
    assert (Hf : In t (filter (inLast4Weeks now) transactions))
      by (apply filter_In; split;
          [exact Hin|apply inLast4Weeks_is_baselineDebit, Hb]).
    rewrite Hnil in Hf. exact Hf.
  - intro Hall.
    destruct (filter (inLast4Weeks now) transactions) as [|t r] eqn:E;
      [reflexivity|].
    assert (Hf : In t (filter (inLast4Weeks now) transactions))
      by (rewrite E; left; reflexivity).
    apply filter_In in Hf. destruct Hf as [Hin Hb].
    exfalso. apply (Hall t Hin). apply inLast4Weeks_is_baselineDebit, Hb.
Qed.

(** The flow of [analyzeWeeklySweep] once the baseline is not empty. *)
Lemma analyze_history (now : Z) (transactions : list transaction) :
  last4WeeksTransactions now transactions <> [] ->
  analyzeWeeklySweep now (map Some transactions) =
    if ltb five (unspentAmount now transactions) then
      HasSweep
        {| sw_thisWeekSpending := thisWeekSpending now transactions;
           sw_avgWeeklySpending := avgWeeklySpending now transactions;
           sw_unspentAmount := unspentAmount now transactions;
           sw_suggestedSavings := mul (unspentAmount now transactions) one_half;
           sw_reason := ("You spent $"
                         ++ toFixed 2 (unspentAmount now transactions)
                         ++ " less than usual this week!")%string |}
    else
      NoSweep (if ltb (avgWeeklySpending now transactions)
                      (thisWeekSpending now transactions)
               then "You spent more than usual this week"
               else "Unspent amount is too small to sweep").
Proof.
  intro H. unfold analyzeWeeklySweep, analyze, unspentAmount.
  rewrite records_map_Some.
  destruct (last4WeeksTransactions now transactions); [congruence|reflexivity].
Qed.

(** C8, as the code has it: with a non-empty baseline window, a sweep is
    offered exactly when the double [avgWeeklySpending - thisWeekSpending],
    computed from the two running sums and the division by 4, is above 5;
    when that double is 5 no sweep is offered, and when it is 5.01 one is;
    the suggested savings are the underspend times 0.5. *)
Theorem sweep_threshold_is_the_computed_underspend
    (now : Z) (transactions : list transaction) :
  (exists t, In t transactions /\ baselineDebit now t) ->
  (hasSweepOpportunity (analyzeWeeklySweep now (map Some transactions)) = true
   <-> ltb five (sub (avgWeeklySpending now transactions)
                     (thisWeekSpending now transactions)) = true) /\
  (sub (avgWeeklySpending now transactions) (thisWeekSpending now transactions)
   = five ->
   hasSweepOpportunity (analyzeWeeklySweep now (map Some transactions)) = false) /\
  (sub (avgWeeklySpending now transactions) (thisWeekSpending now transactions)
   = dec 501 100 ->
   hasSweepOpportunity (analyzeWeeklySweep now (map Some transactions)) = true) /\
  (forall s, analyzeWeeklySweep now (map Some transactions) = HasSweep s ->
     sw_avgWeeklySpending s
       = div (sumAmounts (filter (inLast4Weeks now) transactions)) four /\
     sw_thisWeekSpending s = sumAmounts (filter (inThisWeek now) transactions) /\
     sw_unspentAmount s
       = sub (avgWeeklySpending now transactions)
             (thisWeekSpending now transactions) /\
     sw_suggestedSavings s
       = mul (sub (avgWeeklySpending now transactions)
                  (thisWeekSpending now transactions)) one_half).
Proof.
  intros (t & Hin & Hb).
  assert (Hne : last4WeeksTransactions now transactions <> []).
  { intro Hnil. exact (proj1 (no_baseline_debit now transactions) Hnil t Hin Hb). }
  rewrite (analyze_history now transactions Hne).
  unfold unspentAmount.
  set (u := sub (avgWeeklySpending now transactions)
                (thisWeekSpending now transactions)).
  split; [|split; [|split]].
  - destruct (ltb five u); simpl; split; congruence.
  - intro Hu. rewrite Hu, ltb_irrefl. reflexivity.
  - intro Hu. rewrite Hu. reflexivity.
  - intros s Hs. destruct (ltb five u); [|discriminate].
    injection Hs as <-. simpl. repeat split.
Qed.

Lemma sweep_threshold_witness :
  (exists t, In t Fixtures64.quiet_week /\ baselineDebit Fixtures.today t) /\
  (hasSweepOpportunity
     (analyzeWeeklySweep Fixtures.today (map Some Fixtures64.quiet_week)) = true
   <-> ltb five (sub (avgWeeklySpending Fixtures.today Fixtures64.quiet_week)
                     (thisWeekSpending Fixtures.today Fixtures64.quiet_week))
       = true).
Proof.
  assert (H : exists t, In t Fixtures64.quiet_week
                        /\ baselineDebit Fixtures.today t).
  { exists (Fixtures64.txn 400 1 9 None). split; [simpl; tauto|].
    split.
    - left. eexists. split; [reflexivity|]. vm_compute. exact I.
    - exists (Fixtures.today - 9 * Fixtures.day)%Z.
      split; [reflexivity|]. vm_compute. split; congruence. }
  split; [exact H|].
  exact (proj1 (sweep_threshold_is_the_computed_underspend
                  Fixtures.today Fixtures64.quiet_week H)).
Defined.

(** With $30.20 spent this week and $70.40 twice in the baseline the
    underspend is $35.20 - $30.20 = $5.00 to the cent, and a sweep is
    offered: the doubles give 5.0000000000000036. *)
Lemma sweep_at_five_dollars_under :
  ((7040 # 100) + (7040 # 100)) / 4 - (3020 # 100) == 5 /\
  exact five
    < exact (unspentAmount Fixtures.today Fixtures64.five_under_in_cents) /\
  exists s,
    analyzeWeeklySweep Fixtures.today (map Some Fixtures64.five_under_in_cents)
    = HasSweep s /\
    sw_thisWeekSpending s = dec 3020 100 /\
    sw_avgWeeklySpending s = dec 3520 100 /\
    sw_reason s = "You spent $5.00 less than usual this week!"%string.
Proof.
  split; [reflexivity|].
  split; [reflexivity|].
  eexists. split; [vm_compute; reflexivity|].
  repeat split.
Qed.

Example five_under_no_sweep :
  analyzeWeeklySweep Fixtures.today (map Some Fixtures64.five_under)
  = NoSweep "Unspent amount is too small to sweep".
Proof. vm_compute. reflexivity. Qed.

End Sweep64Facts.

(** ** Records with a bad amount or a bad date, on binary64 amounts *)

Module Malformed64Facts.
Import Js Float64 Json Spec64 Float64Facts.

Lemma deposit_wellFormed (now : Z) (med : float) (t : transaction) :
  Windfall64.isRecentLargeDeposit now med t = true -> wellFormed t = true.
Proof.
  unfold Windfall64.isRecentLargeDeposit, wellFormed, parsableDate, date_ge.
  rewrite !andb_true_iff. intros [[Hc _] Hd].
  split; [apply credit_numeric, Hc|].
  destruct (t_date t); [reflexivity|discriminate].
Qed.

Lemma thisWeek_countable (now : Z) (t : transaction) :
  Sweep64.inThisWeek now t = true ->
  countableAmount t && parsableDate t = true.
Proof.
  unfold Sweep64.inThisWeek, parsableDate, date_ge.
  rewrite !andb_true_iff. intros [Hc Hd].
  split; [apply debit_countable, Hc|].
  destruct (t_date t); [reflexivity|discriminate].
Qed.

Lemma last4Weeks_countable (now : Z) (t : transaction) :
  Sweep64.inLast4Weeks now t = true ->
  countableAmount t && parsableDate t = true.
Proof.
  unfold Sweep64.inLast4Weeks, parsableDate, date_ge.
  rewrite !andb_true_iff. intros [[Hc Hd] _].
  split; [apply debit_countable, Hc|].
  destruct (t_date t); [reflexivity|discriminate].
Qed.

Lemma detect_not_failed (now : Z) (ts : list transaction) :
  Windfall64.detect now ts <> Windfall64.Failed.
Proof.
  unfold Windfall64.detect.
  destruct (_ <? 2)%nat; [discriminate|].
  destruct (Windfall64.recentLargeDeposits _ _ _); discriminate.
Qed.

Lemma analyze_not_failed (now : Z) (ts : list transaction) :
  Sweep64.analyze now ts <> Sweep64.Failed.
Proof.
  unfold Sweep64.analyze.
  destruct (Sweep64.last4WeeksTransactions now ts); [discriminate|].
  destruct (ltb five _); [discriminate|].
  destruct (ltb _ _); discriminate.
Qed.

(** C7, as the code has it.  There is no normalizing step: a record drops
    out where a comparison on its bad field is false.  The weekly sweep
    ignores every record whose date does not parse or whose amount is
    missing, [null], [false] or NaN; the windfall detector ignores every
    record whose amount is missing, [null], a boolean or NaN and never
    keeps a record whose date does not parse as a deposit, while its
    baseline is the median of all credits whatever their dates.  On an
    array of records neither detector takes the path of its [catch]; an
    array with a [null] element sends both there. *)
Theorem records_skipped_where_their_comparison_fails
    (now : Z) (transactions : list transaction) :
  Sweep64.analyzeWeeklySweep now
    (map Some (filter (fun t => countableAmount t && parsableDate t) transactions))
    = Sweep64.analyzeWeeklySweep now (map Some transactions) /\
  Windfall64.detectWindfall now (map Some (filter numericAmount transactions))
    = Windfall64.detectWindfall now (map Some transactions) /\
  (forall med,
     Windfall64.recentLargeDeposits now med (filter wellFormed transactions)
     = Windfall64.recentLargeDeposits now med transactions) /\
  Windfall64.median
    (Windfall64.incomeTransactions (filter numericAmount transactions))
    = Windfall64.median (Windfall64.incomeTransactions transactions) /\
  Windfall64.detectWindfall now (map Some transactions) <> Windfall64.Failed /\
  Sweep64.analyzeWeeklySweep now (map Some transactions) <> Sweep64.Failed /\
  (forall l : list element, In None l ->
     Windfall64.detectWindfall now l = Windfall64.Failed /\
     Sweep64.analyzeWeeklySweep now l = Sweep64.Failed).
Proof.
  assert (Hinc : Windfall64.incomeTransactions (filter numericAmount transactions)
                 = Windfall64.incomeTransactions transactions).
  { unfold Windfall64.incomeTransactions.
    rewrite (NormalizerFacts.filter_absorb isCredit numericAmount)
      by apply credit_numeric.
    reflexivity. }
  split; [|split; [|split; [|split; [|split; [|split]]]]].
  - unfold Sweep64.analyzeWeeklySweep. rewrite !records_map_Some.
    unfold Sweep64.analyze, Sweep64.avgWeeklySpending, Sweep64.thisWeekSpending,
      Sweep64.last4WeeksTransactions.
    rewrite (NormalizerFacts.filter_absorb (Sweep64.inThisWeek now))
      by apply thisWeek_countable.
    rewrite (NormalizerFacts.filter_absorb (Sweep64.inLast4Weeks now))
      by apply last4Weeks_countable.
    reflexivity.
  - unfold Windfall64.detectWindfall. rewrite !records_map_Some.
    unfold Windfall64.detect, Windfall64.recentLargeDeposits.
    rewrite Hinc.
    rewrite (NormalizerFacts.filter_absorb _ numericAmount).
    + reflexivity.
    + intros t H. apply deposit_wellFormed in H.
      unfold wellFormed in H. apply andb_true_iff in H. tauto.
  - intro med. unfold Windfall64.recentLargeDeposits.
    rewrite (NormalizerFacts.filter_absorb _ wellFormed); [reflexivity|].
    apply deposit_wellFormed.
  - rewrite Hinc. reflexivity.
  - unfold Windfall64.detectWindfall. rewrite records_map_Some.
    apply detect_not_failed.
  - unfold Sweep64.analyzeWeeklySweep. rewrite records_map_Some.
    apply analyze_not_failed.
  - intros l Hl. unfold Windfall64.detectWindfall, Sweep64.analyzeWeeklySweep.
    rewrite (records_null l Hl). split; reflexivity.
Qed.

(** Dropping the three credits whose date does not parse turns "no
    windfall" into a windfall: they were counted in the baseline.  And a
    record whose amount is [true] adds one dollar to this week's
    spending. *)
Lemma undated_credits_and_true_amounts_are_counted :
  Windfall64.detectWindfall Fixtures.today (map Some Fixtures64.with_undated)
    = Windfall64.NotWindfall "No recent large deposits detected" /\
  Windfall64.isWindfall
    (Windfall64.detectWindfall Fixtures.today
       (map Some (filter wellFormed Fixtures64.with_undated))) = true /\
  Windfall64.detectWindfall Fixtures.today (map Some Fixtures64.with_undated)
    <> Windfall64.detectWindfall Fixtures.today
         (map Some (filter wellFormed Fixtures64.with_undated)) /\
  Sweep64.thisWeekSpending Fixtures.today Fixtures64.quiet_week = of_Z 200 /\
  Sweep64.thisWeekSpending Fixtures.today Fixtures64.quiet_week_and_true
    = of_Z 201 /\
  Sweep64.analyzeWeeklySweep Fixtures.today
    (map Some Fixtures64.quiet_week_and_true)
    <> Sweep64.analyzeWeeklySweep Fixtures.today
         (map Some (filter wellFormed Fixtures64.quiet_week_and_true)).
Proof.
  split; [vm_compute; reflexivity|].
  split; [vm_compute; reflexivity|].
  split; [vm_compute; discriminate|].
  split; [vm_compute; reflexivity|].
  split; [vm_compute; reflexivity|].
  vm_compute. discriminate.
Qed.

End Malformed64Facts.

(** ** Soft lock *)

Module SoftLockFacts.
Import Js SoftLock JsFacts.

(** What follows holds for a server in any time zone [tz]. *)
Section Zone.
Context {tz : timezone}.

(** *** The queries *)

Lemma select_vault_none (vaultId : string) (s : db) :
  (forall a, In a (increase_accounts s) ->
             increase_account_id a = vaultId ->
             account_type a <> "vault"%string) ->
  select_vault vaultId s = None.
Proof.
  intro H. unfold select_vault.
  destruct (find _ (increase_accounts s)) as [a|] eqn:E; [|reflexivity].
  apply find_some in E. destruct E as [Hin Hb].
  apply andb_true_iff in Hb. destruct Hb as [Hi Ht].
  apply String.eqb_eq in Hi, Ht.
  exfalso. exact (H a Hin Hi Ht).
Qed.

Lemma select_vault_some (vaultId : string) (s : db) :
  (exists a, In a (increase_accounts s) /\
             increase_account_id a = vaultId /\
             account_type a = "vault"%string) ->
  exists v, select_vault vaultId s = Some v /\
            In v (increase_accounts s) /\
            increase_account_id v = vaultId /\
            account_type v = "vault"%string.
Proof.
  intros (a & Hin & Hi & Ht). unfold select_vault.
  destruct (find _ (increase_accounts s)) as [v|] eqn:E.
  - exists v. split; [reflexivity|].
    apply find_some in E. destruct E as [Hv Hb].
    apply andb_true_iff in Hb. destruct Hb as [Hvi Hvt].
    apply String.eqb_eq in Hvi, Hvt. auto.
  - exfalso. apply (find_none _ _ E) in Hin.
    rewrite (proj2 (String.eqb_eq _ _) Hi) in Hin.
    rewrite (proj2 (String.eqb_eq _ _) Ht) in Hin. discriminate.
Qed.

Lemma select_account_some (vaultId : string) (s : db) :
  (exists a, In a (increase_accounts s) /\ increase_account_id a = vaultId) ->
  exists v, select_account vaultId s = Some v /\
            In v (increase_accounts s) /\ increase_account_id v = vaultId.
Proof.
  intros (a & Hin & Hi). unfold select_account.
  destruct (find _ (increase_accounts s)) as [v|] eqn:E.
  - exists v. split; [reflexivity|].
    apply find_some in E. destruct E as [Hv Hb].
    apply String.eqb_eq in Hb. auto.
  - exfalso. apply (find_none _ _ E) in Hin.
    rewrite (proj2 (String.eqb_eq _ _) Hi) in Hin. discriminate.
Qed.

Lemma is_pending_for_spec (vaultId : string) (r : withdrawal_request) :
  is_pending_for vaultId r = true <->
  vault_id r = vaultId /\ status r = "pending"%string.
Proof.
  unfold is_pending_for. rewrite andb_true_iff, !String.eqb_eq. reflexivity.
Qed.

(** [newest] started from a row returns a row of maximal [created_at]. *)
Lemma newest_from (rows : list withdrawal_request) (b : withdrawal_request) :
  exists r,
    fold_left
      (fun best r =>
         match best with
         | None => Some r
         | Some b => if (created_at b <? created_at r)%Z then Some r else Some b
         end)
      rows (Some b) = Some r /\
    In r (b :: rows) /\
    (forall p, In p (b :: rows) -> (created_at p <= created_at r)%Z).
Proof.
  revert b. induction rows as [|x rows IH]; intro b; simpl.
  - exists b. split; [reflexivity|]. split; [left; reflexivity|].
    intros p [<-|[]]. lia.
  - destruct (created_at b <? created_at x)%Z eqn:E.
    + apply Z.ltb_lt in E.
      destruct (IH x) as (r & Hr & Hin & Hmax).
      exists r. split; [exact Hr|]. split.
      * right. exact Hin.
      * intros p [<-|Hp]; [|apply Hmax, Hp].
        specialize (Hmax x (or_introl eq_refl)). lia.
    + apply Z.ltb_ge in E.
      destruct (IH b) as (r & Hr & Hin & Hmax).
      exists r. split; [exact Hr|]. split.
      * destruct Hin as [<-|Hin]; [left; reflexivity|right; right; exact Hin].
      * intros p [<-|[<-|Hp]].
        -- apply Hmax. left. reflexivity.
        -- specialize (Hmax b (or_introl eq_refl)). lia.
        -- apply Hmax. right. exact Hp.
Qed.

Lemma newest_spec (rows : list withdrawal_request) :
  match newest rows with
  | None => rows = []
  | Some r => In r rows /\
              (forall p, In p rows -> (created_at p <= created_at r)%Z)
  end.
Proof.
  unfold newest. destruct rows as [|b rows]; simpl; [reflexivity|].
  destruct (newest_from rows b) as (r & -> & Hin & Hmax).
  split; assumption.
Qed.

(** The row [select_pending] returns is a Pending row of the vault with
    the latest creation time; it returns none only when there is none. *)
Lemma select_pending_spec (vaultId : string) (s : db) :
  match select_pending vaultId s with
  | None =>
      forall p, In p (withdrawal_requests s) ->
                vault_id p = vaultId -> status p <> "pending"%string
  | Some r =>
      In r (withdrawal_requests s) /\
      vault_id r = vaultId /\ status r = "pending"%string /\
      (forall p, In p (withdrawal_requests s) ->
                 vault_id p = vaultId -> status p = "pending"%string ->
                 (created_at p <= created_at r)%Z)
  end.
Proof.
  unfold select_pending.
  pose proof (newest_spec (filter (is_pending_for vaultId) (withdrawal_requests s)))
    as H.
  destruct (newest _) as [r|].
  - destruct H as [Hin Hmax]. apply filter_In in Hin.
    destruct Hin as [Hin Hp]. apply is_pending_for_spec in Hp.
    destruct Hp as [Hv Hs]. repeat split; try assumption.
    intros p Hp Hpv Hps. apply Hmax, filter_In. split; [exact Hp|].
    apply is_pending_for_spec. auto.
  - intros p Hp Hpv Hps.
    assert (Hf : In p (filter (is_pending_for vaultId) (withdrawal_requests s))).
    { apply filter_In. split; [exact Hp|]. apply is_pending_for_spec. auto. }
    rewrite H in Hf. exact Hf.
Qed.

(** *** Hours and milliseconds *)

(** The time the server reads a request as created at is its stored UTC
    text moved by the zone offset. *)
Lemma requestTime_offset (r : withdrawal_request) :
  requestTime r = (created_at r - localTZA (created_at r))%Z.
Proof. reflexivity. Qed.

Lemma hours_at_least_24 (now : Z) (r : withdrawal_request) :
  24 <= hoursSinceRequest now r <-> (requestTime r + 86400000 <= now)%Z.
Proof.
  unfold hoursSinceRequest. generalize (requestTime r). intro c.
  unfold Qle, Qdiv, Qmult, Qinv, inject_Z. simpl. lia.
Qed.

Lemma hours_below_24 (now : Z) (r : withdrawal_request) :
  hoursSinceRequest now r < 24 <-> (now < requestTime r + 86400000)%Z.
Proof.
  unfold hoursSinceRequest. generalize (requestTime r). intro c.
  unfold Qlt, Qdiv, Qmult, Qinv, inject_Z. simpl. lia.
Qed.

(** *** checkSoftLock reads only *)

Lemma checkSoftLock_reads_only (vaultId : string) (amt : Q) (now : Z) (s : db) :
  snd (checkSoftLock vaultId amt now s) = s.
Proof.
  unfold checkSoftLock, bind, dbGet, ret.
  destruct (select_vault vaultId s); [|reflexivity].
  destruct (select_pending vaultId s); [|reflexivity].
  destruct (Qle_bool 24 _); reflexivity.
Qed.

(** X26: for a vault that exists and has a Pending request, let [r] be
    the Pending request of the vault the lookup selects (one with the
    latest stored creation text).  The check counts the hours from the
    stored text read in the zone of the server: when that reading is at
    least 24 hours before now it answers allowed, tagged with the
    identifier of [r]; otherwise it answers not allowed, reason
    cooling_period, with hoursRemaining the ceiling of 24 minus the hours
    it counts. *)
Theorem check_counts_from_the_local_reading
    (vaultId : string) (amt : Q) (now : Z) (s : db) :
  (exists a, In a (increase_accounts s) /\
             increase_account_id a = vaultId /\
             account_type a = "vault"%string) ->
  (exists p, In p (withdrawal_requests s) /\
             vault_id p = vaultId /\ status p = "pending"%string) ->
  exists r,
    In r (withdrawal_requests s) /\
    vault_id r = vaultId /\ status r = "pending"%string /\
    (forall p, In p (withdrawal_requests s) ->
               vault_id p = vaultId -> status p = "pending"%string ->
               (created_at p <= created_at r)%Z) /\
    ((requestTime r + 24 * 60 * 60 * 1000 <= now)%Z ->
     24 <= hoursSinceRequest now r /\
     fst (checkSoftLock vaultId amt now s)
     = LockAllowed "Withdrawal unlocked after 24-hour cooling period" (id r)) /\
    ((now < requestTime r + 24 * 60 * 60 * 1000)%Z ->
     hoursSinceRequest now r < 24 /\
     fst (checkSoftLock vaultId amt now s)
     = LockCooling "cooling_period"
         (Qceiling (24 - hoursSinceRequest now r))
         ("Withdrawal will be available in "
          ++ Z_to_string (Qceiling (24 - hoursSinceRequest now r))
          ++ " hours")%string).
Proof.
  intros Hvault (p & Hp & Hpv & Hps).
  destruct (select_vault_some vaultId s Hvault) as (v & Hv & _).
  pose proof (select_pending_spec vaultId s) as Hsel.
  destruct (select_pending vaultId s) as [r|] eqn:E.
  2:{ exfalso. exact (Hsel p Hp Hpv Hps). }
  destruct Hsel as (Hin & Hrv & Hrs & Hmax).
  exists r. repeat split; try assumption.
  - apply hours_at_least_24. lia.
  - unfold checkSoftLock, bind, dbGet, ret. rewrite Hv, E.
    assert (Hh : 24 <= hoursSinceRequest now r) by (apply hours_at_least_24; lia).
    apply Qle_bool_iff in Hh. rewrite Hh. reflexivity.
  - apply hours_below_24. lia.
  - unfold checkSoftLock, bind, dbGet, ret. rewrite Hv, E.
    assert (Hh : hoursSinceRequest now r < 24) by (apply hours_below_24; lia).
    destruct (Qle_bool 24 (hoursSinceRequest now r)) eqn:B.
    + apply Qle_bool_iff in B. exfalso. exact (Qlt_not_le _ _ Hh B).
    + reflexivity.
Qed.

(** C3, as the code has it: for a vault with no Pending request the check
    answers not allowed with the reason "new_request" and the flag
    requiresCooling, carrying the name, balance, goal amount and purpose
    of the vault; the store is left as it was, here and in every other
    case. *)
Theorem checkSoftLock_new_request_reads_only
    (vaultId : string) (amt : Q) (now : Z) (s : db) (vault : account) :
  In vault (increase_accounts s) ->
  increase_account_id vault = vaultId ->
  account_type vault = "vault"%string ->
  (forall a, In a (increase_accounts s) ->
             increase_account_id a = vaultId -> a = vault) ->
  (forall p, In p (withdrawal_requests s) ->
             vault_id p = vaultId -> status p <> "pending"%string) ->
  checkSoftLock vaultId amt now s
  = (LockNewRequest "new_request" true
       {| v_name := name vault;
          v_balance := balance vault;
          v_goalAmount := goal_amount vault;
          v_purpose := purpose vault |},
     s) /\
  (forall vaultId' amt' now' s', snd (checkSoftLock vaultId' amt' now' s') = s').
Proof.
  intros Hvault Hid Hty Huniq Hnone.
  assert (Hv : select_vault vaultId s = Some vault).
  { destruct (select_vault_some vaultId s) as (v & Hv & Hvin & Hvid & _).
    - exists vault. auto.
    - rewrite Hv. f_equal. apply Huniq; assumption. }
  split.
  - unfold checkSoftLock, bind, dbGet, ret. rewrite Hv.
    pose proof (select_pending_spec vaultId s) as Hsel.
    destruct (select_pending vaultId s) as [r|].
    + destruct Hsel as (Hin & Hrv & Hrs & _).
      exfalso. exact (Hnone r Hin Hrv Hrs).
    + reflexivity.
  - intros. apply checkSoftLock_reads_only.
Qed.

(** *** Counting Pending requests *)

Lemma pending_count_insert (v vaultId : string) (amt : Q) (why impact : string)
    (now : Z) (s : db) :
  pending_count v (insert_request vaultId amt why impact now s)
  = (pending_count v s + (if String.eqb vaultId v then 1 else 0))%nat.
Proof.
  unfold pending_count, insert_request. simpl.
  rewrite filter_app, length_app. simpl.
  unfold is_pending_for at 2. simpl.
  destruct (String.eqb vaultId v); reflexivity.
Qed.

Lemma pending_count_mark_completed (v : string) (requestId now : Z) (s : db) :
  (pending_count v (mark_completed requestId now s) <= pending_count v s)%nat.
Proof.
  unfold pending_count, mark_completed. simpl.
  induction (withdrawal_requests s) as [|r l IH]; simpl; [lia|].
  destruct (id r =? requestId)%Z.
  - unfold is_pending_for at 1. simpl. rewrite andb_false_r.
    destruct (is_pending_for v r); simpl; lia.
  - destruct (is_pending_for v r); simpl; lia.
Qed.

Lemma pending_count_updateAccountBalance (v accountId : string) (b : Q) (s : db) :
  pending_count v (updateAccountBalance accountId b s) = pending_count v s.
Proof. reflexivity. Qed.

Lemma select_pending_none_count (vaultId : string) (s : db) :
  select_pending vaultId s = None -> pending_count vaultId s = 0%nat.
Proof.
  unfold select_pending, pending_count. intro H.
  pose proof (newest_spec (filter (is_pending_for vaultId) (withdrawal_requests s)))
    as Hn.
  rewrite H in Hn. rewrite Hn. reflexivity.
Qed.

(** C10: for an account of the ledger whose type is not 'vault', the check
    reports "Vault not found" and leaves the store as it was, while
    [createWithdrawalRequest] on the same id succeeds and appends a
    Pending request for that id. *)
Theorem non_vault_account_check_fails_create_succeeds
    (vaultId : string) (amt : Q) (why : option string) (now : Z) (s : db)
    (a : account) :
  In a (increase_accounts s) ->
  increase_account_id a = vaultId ->
  (forall a', In a' (increase_accounts s) ->
              increase_account_id a' = vaultId ->
              account_type a' <> "vault"%string) ->
  checkSoftLock vaultId amt now s = (LockError "Vault not found", s) /\
  success (fst (createWithdrawalRequest vaultId amt why now s)) = true /\
  (exists r,
     withdrawal_requests (snd (createWithdrawalRequest vaultId amt why now s))
     = withdrawal_requests s ++ [r] /\
     vault_id r = vaultId /\ status r = "pending"%string /\ amount r = amt) /\
  pending_count vaultId (snd (createWithdrawalRequest vaultId amt why now s))
  = S (pending_count vaultId s).
Proof.
  intros Hin Hid Hty.
  destruct (select_account_some vaultId s) as (v & Hv & _).
  { exists a. auto. }
  split; [|split; [|split]].
  - unfold checkSoftLock, bind, dbGet, ret.
    rewrite (select_vault_none vaultId s Hty). reflexivity.
  - unfold createWithdrawalRequest, bind, dbGet, dbRun, ret.
    rewrite Hv. reflexivity.
  - unfold createWithdrawalRequest, bind, dbGet, dbRun, ret.
    rewrite Hv. simpl. eexists. split; [reflexivity|].
    repeat split.
  - unfold createWithdrawalRequest, bind, dbGet, dbRun, ret.
    rewrite Hv. simpl. rewrite pending_count_insert.
    rewrite String.eqb_refl. lia.
Qed.

(** *** The single-pending invariant along the routes *)

(** The four answers of [checkSoftLock]; a new request is asked for only
    when the vault has no Pending request. *)
Lemma checkSoftLock_shape (vaultId : string) (amt : Q) (now : Z) (s : db) :
  fst (checkSoftLock vaultId amt now s) = LockError "Vault not found" \/
  (exists m i, fst (checkSoftLock vaultId amt now s) = LockAllowed m i) \/
  (exists h m, fst (checkSoftLock vaultId amt now s)
               = LockCooling "cooling_period" h m) \/
  (exists v, fst (checkSoftLock vaultId amt now s)
             = LockNewRequest "new_request" true v /\
             select_pending vaultId s = None).
Proof.
  unfold checkSoftLock, bind, dbGet, ret.
  destruct (select_vault vaultId s) as [v|]; [|left; reflexivity].
  destruct (select_pending vaultId s) as [r|].
  - destruct (Qle_bool 24 (hoursSinceRequest now r)).
    + right; left. eexists; eexists; reflexivity.
    + right; right; left. eexists; eexists; reflexivity.
  - right; right; right. eexists. split; reflexivity.
Qed.

Lemma checkSoftLock_pair (vaultId : string) (amt : Q) (now : Z) (s : db) :
  checkSoftLock vaultId amt now s = (fst (checkSoftLock vaultId amt now s), s).
Proof.
  rewrite <- (checkSoftLock_reads_only vaultId amt now s) at 3.
  apply surjective_pairing.
Qed.

Lemma createWithdrawalRequest_keeps_single
    (vaultId : string) (amt : Q) (why : option string) (now : Z) (s : db) :
  select_pending vaultId s = None ->
  single_pending s ->
  single_pending (snd (createWithdrawalRequest vaultId amt why now s)).
Proof.
  intros Hnone Hs. unfold createWithdrawalRequest, bind, dbGet, dbRun, ret.
  destruct (select_account vaultId s) as [v|]; simpl; [|exact Hs].
  intro v'. rewrite pending_count_insert.
  destruct (String.eqb vaultId v') eqn:E.
  - apply String.eqb_eq in E. subst v'.
    rewrite (select_pending_none_count vaultId s Hnone). lia.
  - specialize (Hs v'). lia.
Qed.

Lemma withdrawRequest_keeps_single
    (vaultId : string) (amt : Q) (why : option string) (now : Z) (s : db) :
  single_pending s ->
  single_pending (snd (withdrawRequest vaultId amt why now s)).
Proof.
  intro Hs. unfold withdrawRequest.
  destruct (String.eqb vaultId "" || Qeq_bool amt 0); [exact Hs|].
  unfold bind at 1. rewrite checkSoftLock_pair.
  destruct (checkSoftLock_shape vaultId amt now s)
    as [E|[(m & i & E)|[(h & m & E)|(v & E & Hnone)]]];
    rewrite E; simpl; try exact Hs.
  unfold bind, ret.
  pose proof (createWithdrawalRequest_keeps_single vaultId amt why now s Hnone Hs)
    as H.
  destruct (createWithdrawalRequest vaultId amt why now s) as [res s'].
  exact H.
Qed.

Lemma createAccountTransfer_requests
    (fromAccountId toAccountId : string) (api : transfer_outcome) (s : db) :
  withdrawal_requests (snd (createAccountTransfer fromAccountId toAccountId api s))
  = withdrawal_requests s.
Proof.
  unfold createAccountTransfer, bind, dbRun, ret.
  destruct (accepted api); [|reflexivity].
  destruct (fromBalance api), (toBalance api); reflexivity.
Qed.

Lemma withdrawExecute_pending_count
    (vaultId toAccountId : string) (amt : Q) (withdrawalRequestId : option Z)
    (api : transfer_outcome) (now : Z) (s : db) (v : string) :
  (pending_count v
     (snd (withdrawExecute vaultId toAccountId amt withdrawalRequestId api now s))
   <= pending_count v s)%nat.
Proof.
  unfold withdrawExecute.
  destruct (String.eqb vaultId "" || String.eqb toAccountId "" || Qeq_bool amt 0);
    [simpl; lia|].
  unfold bind at 1. rewrite checkSoftLock_pair.
  destruct (negb (allowed (fst (checkSoftLock vaultId amt now s))));
    [simpl; lia|].
  unfold bind at 1.
  pose proof (createAccountTransfer_requests vaultId toAccountId api s) as Hreq.
  destruct (createAccountTransfer vaultId toAccountId api s) as [ok s1].
  simpl in Hreq.
  assert (H1 : pending_count v s1 = pending_count v s)
    by (unfold pending_count; rewrite Hreq; reflexivity).
  unfold bind, dbRun, ret.
  destruct withdrawalRequestId as [requestId|]; simpl; [|lia].
  destruct (ok && negb (requestId =? 0)%Z); simpl; [|lia].
  pose proof (pending_count_mark_completed v requestId now s1). lia.
Qed.

Lemma handle_keeps_single (c : api_call) (s : db) :
  single_pending s -> single_pending (snd (handle c s)).
Proof.
  intro Hs. destruct c as [v a w now|v t a rid api now]; simpl.
  - apply withdrawRequest_keeps_single, Hs.
  - intro v'.
    pose proof (withdrawExecute_pending_count v t a rid api now s v').
    specialize (Hs v'). lia.
Qed.

(** C1, as the code has it: [createWithdrawalRequest] inserts a Pending
    request whether or not the vault already has one; it is the request
    route that creates one only after the check found none.  So a store
    in which every vault has at most one Pending request keeps that
    property through any sequence of calls to the request and execute
    routes handled one after the other. *)
Theorem routes_keep_single_pending (calls : list api_call) (s : db) :
  single_pending s -> single_pending (serve calls s).
Proof.
  unfold serve. revert s.
  induction calls as [|c calls IH]; intros s Hs; simpl.
  - exact Hs.
  - apply IH, handle_keeps_single, Hs.
Qed.

End Zone.

(** *** The cooling period on servers in three zones *)

Lemma check_counts_from_the_local_reading_witness :
  exists r,
    In r (withdrawal_requests Fixtures.ledger_requested) /\
    vault_id r = "account_vault_1"%string /\ status r = "pending"%string /\
    (forall p, In p (withdrawal_requests Fixtures.ledger_requested) ->
               vault_id p = "account_vault_1"%string ->
               status p = "pending"%string ->
               (created_at p <= created_at r)%Z) /\
    ((requestTime (tz := Fixtures.new_york) r + 24 * 60 * 60 * 1000
      <= Fixtures.today + 3600000)%Z ->
     24 <= hoursSinceRequest (tz := Fixtures.new_york)
             (Fixtures.today + 3600000) r /\
     fst (checkSoftLock (tz := Fixtures.new_york) "account_vault_1" 100
            (Fixtures.today + 3600000) Fixtures.ledger_requested)
     = LockAllowed "Withdrawal unlocked after 24-hour cooling period" (id r)) /\
    ((Fixtures.today + 3600000
      < requestTime (tz := Fixtures.new_york) r + 24 * 60 * 60 * 1000)%Z ->
     hoursSinceRequest (tz := Fixtures.new_york)
       (Fixtures.today + 3600000) r < 24 /\
     fst (checkSoftLock (tz := Fixtures.new_york) "account_vault_1" 100
            (Fixtures.today + 3600000) Fixtures.ledger_requested)
     = LockCooling "cooling_period"
         (Qceiling (24 - hoursSinceRequest (tz := Fixtures.new_york)
                           (Fixtures.today + 3600000) r))
         ("Withdrawal will be available in "
          ++ Z_to_string
               (Qceiling (24 - hoursSinceRequest (tz := Fixtures.new_york)
                                 (Fixtures.today + 3600000) r))
          ++ " hours")%string).
Proof.
  apply (check_counts_from_the_local_reading (tz := Fixtures.new_york)
           "account_vault_1" 100
           (Fixtures.today + 3600000) Fixtures.ledger_requested).
  - exists Fixtures.trip_vault. repeat split. simpl. tauto.
  - eexists. split; [left; reflexivity|]. split; reflexivity.
Defined.

(** C2: the check reads the stored creation text, which SQLite writes in
    UTC, as local time, so it does not count the hours from the creation
    of the request.  A request is created on the sample ledger at
    [today], and the caller is told it is available 24 hours later.  On a
    server in New York the check answers 28 hours remaining one hour
    after the creation and still refuses, with 5 hours remaining, 24
    hours after it; on a server in Berlin it allows 23 hours after the
    creation; on a server in UTC it refuses one minute before the 24
    hours are over and allows from then on. *)
Theorem cooling_period_counts_from_the_local_reading :
  (exists impact,
     createWithdrawalRequest "account_vault_1" 100 (Some "car repair"%string)
       Fixtures.today Fixtures.ledger
     = (Created "24-hour cooling period started" impact
          (Fixtures.today + 24 * 60 * 60 * 1000)%Z,
        Fixtures.ledger_requested)) /\
  fst (checkSoftLock (tz := Fixtures.new_york) "account_vault_1" 100
         (Fixtures.today + 3600000) Fixtures.ledger_requested)
  = LockCooling "cooling_period" 28 "Withdrawal will be available in 28 hours" /\
  fst (checkSoftLock (tz := Fixtures.new_york) "account_vault_1" 100
         (Fixtures.today + 24 * 60 * 60 * 1000) Fixtures.ledger_requested)
  = LockCooling "cooling_period" 5 "Withdrawal will be available in 5 hours" /\
  fst (checkSoftLock (tz := Fixtures.berlin) "account_vault_1" 100
         (Fixtures.today + 23 * 60 * 60 * 1000) Fixtures.ledger_requested)
  = LockAllowed "Withdrawal unlocked after 24-hour cooling period" 1 /\
  fst (checkSoftLock (tz := Fixtures.utc) "account_vault_1" 100
         (Fixtures.today + 24 * 60 * 60 * 1000 - 60000) Fixtures.ledger_requested)
  = LockCooling "cooling_period" 1 "Withdrawal will be available in 1 hours" /\
  fst (checkSoftLock (tz := Fixtures.utc) "account_vault_1" 100
         (Fixtures.today + 24 * 60 * 60 * 1000) Fixtures.ledger_requested)
  = LockAllowed "Withdrawal unlocked after 24-hour cooling period" 1.
Proof.
  split; [eexists; vm_compute; reflexivity|].
  repeat split; vm_compute; reflexivity.
Qed.

(** *** On the sample ledger, with the server in UTC *)

Section OnUtc.
#[local] Existing Instance Fixtures.utc.

Example cooling_after_one_hour :
  fst (checkSoftLock "account_vault_1" 100 (Fixtures.today + 3600000)
         Fixtures.ledger_requested)
  = LockCooling "cooling_period" 23 "Withdrawal will be available in 23 hours".
Proof. vm_compute. reflexivity. Qed.

Example cooling_one_minute_before :
  fst (checkSoftLock "account_vault_1" 100 (Fixtures.today + 86400000 - 60000)
         Fixtures.ledger_requested)
  = LockCooling "cooling_period" 1 "Withdrawal will be available in 1 hours".
Proof. vm_compute. reflexivity. Qed.

Example allowed_after_a_day :
  fst (checkSoftLock "account_vault_1" 100 (Fixtures.today + 86400000)
         Fixtures.ledger_requested)
  = LockAllowed "Withdrawal unlocked after 24-hour cooling period" 1.
Proof. vm_compute. reflexivity. Qed.

Lemma checkSoftLock_new_request_witness :
  checkSoftLock "account_vault_1" 250 Fixtures.today Fixtures.ledger
  = (LockNewRequest "new_request" true
       {| v_name := "Trip"; v_balance := 1000;
          v_goalAmount := Some 2000; v_purpose := Some "Vacation"%string |},
     Fixtures.ledger).
Proof.
  apply (checkSoftLock_new_request_reads_only
           "account_vault_1" 250 Fixtures.today Fixtures.ledger
           Fixtures.trip_vault).
  - left. reflexivity.
  - reflexivity.
  - reflexivity.
  - intros a [<-|[<-|[]]]; [reflexivity|discriminate].
  - intros p [].
Defined.

(** The reason the check gives for a vault without a Pending request is
    the string "new_request". *)
Lemma new_request_reason_literal :
  lock_reason (fst (checkSoftLock "account_vault_1" 250 Fixtures.today
                      Fixtures.ledger))
  = Some "new_request"%string /\
  lock_reason (fst (checkSoftLock "account_vault_1" 250 Fixtures.today
                      Fixtures.ledger))
  <> Some "new_request_required"%string.
Proof. split; [reflexivity|]. vm_compute. discriminate. Qed.

Lemma non_vault_account_witness :
  checkSoftLock "account_main_1" 75 Fixtures.today Fixtures.ledger
  = (LockError "Vault not found", Fixtures.ledger) /\
  success (fst (createWithdrawalRequest "account_main_1" 75 None
                  Fixtures.today Fixtures.ledger)) = true.
Proof.
  destruct (non_vault_account_check_fails_create_succeeds
              "account_main_1" 75 None Fixtures.today Fixtures.ledger
              Fixtures.main_account) as (H1 & H2 & _).
  - right. left. reflexivity.
  - reflexivity.
  - intros a' [<-|[<-|[]]]; simpl; intros; discriminate.
  - split; assumption.
Defined.

Lemma routes_keep_single_pending_witness :
  single_pending
    (serve [ WithdrawRequest "account_vault_1" 100 (Some "car repair"%string)
               Fixtures.today;
             WithdrawRequest "account_vault_1" 40 None
               (Fixtures.today + 60000);
             WithdrawExecute "account_vault_1" "account_main_1" 100 (Some 1%Z)
               {| accepted := true; fromBalance := Some 900;
                  toBalance := Some 3600 |}
               (Fixtures.today + 90000000) ]
           Fixtures.ledger).
Proof.
  apply routes_keep_single_pending.
  intro v. unfold pending_count. simpl. lia.
Defined.

(** Two calls of [createWithdrawalRequest] on the same vault both succeed
    and leave two Pending requests for it. *)
Lemma createWithdrawalRequest_twice_two_pending :
  single_pending Fixtures.ledger /\
  success (fst (createWithdrawalRequest "account_vault_1" 40 None
                  (Fixtures.today + 60000) Fixtures.ledger_requested)) = true /\
  pending_count "account_vault_1"
    (snd (createWithdrawalRequest "account_vault_1" 40 None
            (Fixtures.today + 60000) Fixtures.ledger_requested)) = 2%nat /\
  ~ single_pending
      (snd (createWithdrawalRequest "account_vault_1" 40 None
              (Fixtures.today + 60000) Fixtures.ledger_requested)).
Proof.
  split; [intro v; unfold pending_count; simpl; lia|].
  split; [reflexivity|].
  split; [reflexivity|].
  intro H. specialize (H "account_vault_1"%string).
  vm_compute in H. lia.
Qed.

Example request_route_twice_one_pending :
  pending_count "account_vault_1"
    (serve [ WithdrawRequest "account_vault_1" 100 None Fixtures.today;
             WithdrawRequest "account_vault_1" 40 None (Fixtures.today + 60000) ]
           Fixtures.ledger) = 1%nat.
Proof. vm_compute. reflexivity. Qed.

End OnUtc.

End SoftLockFacts.

(** ** The baseline as an order statistic *)

Module MedianFacts.
Import Js Windfall JsFacts SortFacts Rank.

Lemma filter_length_perm {A : Type} (f : A -> bool) (l l' : list A) :
  Permutation l l' ->
  List.length (filter f l) = List.length (filter f l').
Proof.
  induction 1 as [|x l l' _ IH|x y l|l l' l'' _ IH1 _ IH2]; simpl.
  - reflexivity.
  - destruct (f x); simpl; rewrite IH; reflexivity.
  - destruct (f x), (f y); reflexivity.
  - rewrite IH1. exact IH2.
Qed.

Lemma filter_length_mono {A : Type} (f g : A -> bool) (l : list A) :
  (forall x, f x = true -> g x = true) ->
  (List.length (filter f l) <= List.length (filter g l))%nat.
Proof.
  intro H. induction l as [|a l IH]; simpl; [lia|].
  destruct (f a) eqn:F.
  - rewrite (H a F). simpl. lia.
  - destruct (g a); simpl; lia.
Qed.

Lemma filter_perm {A : Type} (f : A -> bool) (l l' : list A) :
  Permutation l l' -> Permutation (filter f l) (filter f l').
Proof.
  induction 1 as [|x l l' _ IH|x y l|l l' l'' _ IH1 _ IH2]; simpl.
  - constructor.
  - destruct (f x); [apply perm_skip|]; exact IH.
  - destruct (f x), (f y); try apply Permutation_refl. apply perm_swap.
  - eapply perm_trans; eassumption.
Qed.

Lemma filter_none {A : Type} (f : A -> bool) (l : list A) :
  (forall x, In x l -> f x = false) -> filter f l = [].
Proof.
  intro H. induction l as [|a l IH]; simpl; [reflexivity|].
  rewrite (H a (or_introl eq_refl)). apply IH.
  intros x Hx. apply H. right. exact Hx.
Qed.

(** In a sorted list, at most [k] elements are strictly below the element
    at index [k], and more than [k] are at most it. *)
Lemma sorted_rank (s : list Q) :
  StronglySorted Qle s ->
  forall k, (k < List.length s)%nat ->
  (below (nth k s 0%Q) s <= k)%nat /\ (k < upto (nth k s 0%Q) s)%nat.
Proof.
  unfold below, upto.
  induction 1 as [|x s Hs IH Hall]; intros k Hk; simpl in Hk; [lia|].
  rewrite Forall_forall in Hall.
  destruct k as [|k]; simpl.
  - assert (Hxx : Qltb x x = false) by (apply Qltb_ge, Qle_refl).
    rewrite Hxx.
    assert (Hle : Qle_bool x x = true) by (apply Qle_bool_iff, Qle_refl).
    rewrite Hle. simpl. split; [|lia].
    rewrite filter_none; [simpl; lia|].
    intros y Hy. apply Qltb_ge, Hall, Hy.
  - assert (Hk' : (k < List.length s)%nat) by lia.
    destruct (IH k Hk') as [Hb Hu].
    assert (Hx : x <= nth k s 0) by (apply Hall, nth_In; exact Hk').
    apply Qle_bool_iff in Hx. rewrite Hx. simpl.
    destruct (Qltb x (nth k s 0)); simpl; lia.
Qed.

(** Two values of the same rank in the same list are equal. *)
Lemma rank_unique (l : list Q) (k : nat) (m m' : Q) :
  (below m l <= k)%nat -> (k < upto m l)%nat ->
  (below m' l <= k)%nat -> (k < upto m' l)%nat ->
  m == m'.
Proof.
  unfold below, upto. intros Hb Hu Hb' Hu'.
  destruct (Q_dec m m') as [[Hlt|Hgt]|Heq]; [| |exact Heq]; exfalso.
  - pose proof (filter_length_mono
                  (fun x => Qle_bool x m) (fun x => Qltb x m') l) as Hmono.
    assert (H : (List.length (filter (fun x => Qle_bool x m) l)
                 <= List.length (filter (fun x => Qltb x m') l))%nat).
    { apply Hmono. intros x Hx. apply Qle_bool_iff in Hx.
      apply Qltb_lt. eapply Qle_lt_trans; eassumption. }
    lia.
  - pose proof (filter_length_mono
                  (fun x => Qle_bool x m') (fun x => Qltb x m) l) as Hmono.
    assert (H : (List.length (filter (fun x => Qle_bool x m') l)
                 <= List.length (filter (fun x => Qltb x m) l))%nat).
    { apply Hmono. intros x Hx. apply Qle_bool_iff in Hx.
      apply Qltb_lt. eapply Qle_lt_trans; eassumption. }
    lia.
Qed.

Lemma median_in (l : list Q) : l <> [] -> In (median l) l.
Proof.
  intro Hne. unfold median.
  apply Permutation_in with (l := sort l).
  - apply Permutation_sym, sort_perm.
  - apply nth_In. rewrite sort_length.
    apply Nat.div_lt; [|lia].
    destruct l as [|a l]; [congruence|simpl; lia].
Qed.

Lemma median_rank (l : list Q) :
  l <> [] ->
  (below (median l) l <= Nat.div (List.length l) 2)%nat /\
  (Nat.div (List.length l) 2 < upto (median l) l)%nat.
Proof.
  intro Hne.
  assert (Hk : (Nat.div (List.length l) 2 < List.length (sort l))%nat).
  { rewrite sort_length. apply Nat.div_lt; [|lia].
    destruct l as [|a l]; [congruence|simpl; lia]. }
  assert (Hs : StronglySorted Qle (sort l)).
  { apply Sorted_StronglySorted; [|apply sort_sorted].
    intros a b c. apply Qle_trans. }
  destruct (sorted_rank (sort l) Hs _ Hk) as [Hb Hu].
  unfold below, upto in *. fold (median l) in Hb, Hu.
  rewrite <- (filter_length_perm _ l (sort l) (sort_perm l)) in Hb.
  rewrite <- (filter_length_perm _ l (sort l) (sort_perm l)) in Hu.
  split; assumption.
Qed.

End MedianFacts.

(** ** More on windfall detection *)

Module WindfallMore.
Import Js Windfall JsFacts SortFacts Rank MedianFacts.

Lemma incomes_inv (transactions : list transaction) (x : Q) :
  In x (incomeTransactions transactions) ->
  exists t q, In t transactions /\ t_amount t = Some q /\ q < 0 /\ x = Qabs q.
Proof.
  unfold incomeTransactions. intro H. apply in_map_iff in H.
  destruct H as (t & Hx & Hin). apply filter_In in Hin.
  destruct Hin as [Hin Hc]. unfold lt0 in Hc.
  destruct (t_amount t) as [q|] eqn:E; [|discriminate].
  apply Qltb_lt in Hc. exists t, q. repeat split; try assumption.
  unfold absAmount in Hx. rewrite E in Hx. simpl in Hx. congruence.
Qed.

Lemma Qabs_of_negative (q : Q) : q < 0 -> 0 < Qabs q.
Proof.
  intro H. rewrite (Qabs_neg q) by (apply Qlt_le_weak; exact H).
  setoid_replace 0 with (- 0) by ring.
  apply Qopp_lt_compat. exact H.
Qed.

Lemma incomes_positive (transactions : list transaction) (x : Q) :
  In x (incomeTransactions transactions) -> 0 < x.
Proof.
  intro H. destruct (incomes_inv _ _ H) as (t & q & _ & _ & Hq & ->).
  apply Qabs_of_negative. exact Hq.
Qed.

Lemma enough_nonempty (transactions : list transaction) :
  (2 <= List.length (incomeTransactions transactions))%nat ->
  incomeTransactions transactions <> [].
Proof. intros H E. rewrite E in H. simpl in H. lia. Qed.

(** What a reported windfall says about the run that produced it. *)
Lemma detectWindfall_inv (now : Z) (transactions : list transaction) (w : windfall) :
  detectWindfall now transactions = IsWindfall w ->
  (2 <= List.length (incomeTransactions transactions))%nat /\
  exists t rest,
    filter (isRecentLargeDeposit now (median (incomeTransactions transactions)))
           transactions = t :: rest /\
    w = report (toDeposit t) (median (incomeTransactions transactions)).
Proof.
  unfold detectWindfall, recentLargeDeposits.
  destruct (List.length (incomeTransactions transactions) <? 2)%nat eqn:E;
    [discriminate|].
  apply Nat.ltb_ge in E. intro H. split; [exact E|].
  destruct (filter _ transactions) as [|t rest]; simpl in H; [discriminate|].
  exists t, rest. split; [reflexivity|]. congruence.
Qed.

Lemma isWindfall_iff (now : Z) (transactions : list transaction) :
  isWindfall (detectWindfall now transactions) = true <->
  (2 <= List.length (incomeTransactions transactions))%nat /\
  exists t, In t transactions /\
            isRecentLargeDeposit now (median (incomeTransactions transactions)) t
            = true.
Proof.
  unfold detectWindfall, recentLargeDeposits.
  destruct (List.length (incomeTransactions transactions) <? 2)%nat eqn:E.
  - apply Nat.ltb_lt in E. simpl. split; [discriminate|]. intros [H _]. lia.
  - apply Nat.ltb_ge in E.
    destruct (filter _ transactions) as [|t rest] eqn:F; simpl.
    + split; [discriminate|]. intros [_ (t & Hin & Ht)].
      assert (Hf : In t (filter (isRecentLargeDeposit now
                                   (median (incomeTransactions transactions)))
                                transactions))
        by (apply filter_In; split; assumption).
      rewrite F in Hf. destruct Hf.
    + split; [|reflexivity]. intros _. split; [exact E|].
      assert (Hf : In t (filter (isRecentLargeDeposit now
                                   (median (incomeTransactions transactions)))
                                transactions))
        by (rewrite F; left; reflexivity).
      apply filter_In in Hf. exists t. exact Hf.
Qed.

(** X1: the baseline is one of the incomes and is positive; at most half of
    the incomes are strictly below it and more than half are at most it. *)
Theorem baseline_is_a_middle_income (transactions : list transaction) :
  (2 <= List.length (incomeTransactions transactions))%nat ->
  In (median (incomeTransactions transactions)) (incomeTransactions transactions) /\
  0 < median (incomeTransactions transactions) /\
  (below (median (incomeTransactions transactions))
         (incomeTransactions transactions)
   <= Nat.div (List.length (incomeTransactions transactions)) 2)%nat /\
  (Nat.div (List.length (incomeTransactions transactions)) 2
   < upto (median (incomeTransactions transactions))
          (incomeTransactions transactions))%nat.
Proof.
  intro H. pose proof (enough_nonempty _ H) as Hne.
  split; [apply median_in, Hne|].
  split; [eapply incomes_positive, median_in, Hne|].
  apply median_rank, Hne.
Qed.

Lemma baseline_is_a_middle_income_witness :
  In (median (incomeTransactions Fixtures.paychecks_and_bonus))
     (incomeTransactions Fixtures.paychecks_and_bonus) /\
  0 < median (incomeTransactions Fixtures.paychecks_and_bonus).
Proof.
  destruct (baseline_is_a_middle_income Fixtures.paychecks_and_bonus)
    as (H1 & H2 & _).
  - vm_compute. lia.
  - split; assumption.
Defined.

Lemma median_perm (l l' : list Q) :
  Permutation l l' -> l <> [] -> median l == median l'.
Proof.
  intros Hp Hne.
  assert (Hne' : l' <> []).
  { intro E. subst l'. apply Permutation_sym, Permutation_nil in Hp. congruence. }
  destruct (median_rank l Hne) as [Hb Hu].
  destruct (median_rank l' Hne') as [Hb' Hu'].
  unfold below, upto in Hb', Hu'.
  rewrite <- (filter_length_perm (fun x => Qltb x (median l')) l l' Hp) in Hb'.
  rewrite <- (filter_length_perm (fun x => Qle_bool x (median l')) l l' Hp) in Hu'.
  rewrite <- (Permutation_length Hp) in Hb', Hu'.
  exact (rank_unique l _ _ _ Hb Hu Hb' Hu').
Qed.

Lemma incomes_perm (transactions transactions' : list transaction) :
  Permutation transactions transactions' ->
  Permutation (incomeTransactions transactions)
              (incomeTransactions transactions').
Proof.
  intro H. unfold incomeTransactions.
  apply Permutation_map, filter_perm, H.
Qed.

Lemma isRecentLargeDeposit_comp (now : Z) (m m' : Q) (t : transaction) :
  m == m' -> isRecentLargeDeposit now m t = isRecentLargeDeposit now m' t.
Proof.
  intro H. unfold isRecentLargeDeposit.
  rewrite (Qltb_comp (m * 1.5) (m' * 1.5) (absAmount t) (absAmount t)).
  - reflexivity.
  - rewrite H. reflexivity.
  - reflexivity.
Qed.

(** X3: whether a windfall is detected, and the baseline it is measured
    against, do not depend on the order of the transactions. *)
Theorem windfall_detection_order_independent
    (now : Z) (transactions transactions' : list transaction) :
  Permutation transactions transactions' ->
  isWindfall (detectWindfall now transactions)
  = isWindfall (detectWindfall now transactions') /\
  (incomeTransactions transactions <> [] ->
   median (incomeTransactions transactions)
   == median (incomeTransactions transactions')).
Proof.
  intro Hp. pose proof (incomes_perm _ _ Hp) as Hi.
  assert (Hmed : incomeTransactions transactions <> [] ->
                 median (incomeTransactions transactions)
                 == median (incomeTransactions transactions'))
    by (apply median_perm; exact Hi).
  split; [|exact Hmed].
  assert (Hdir : forall a b,
             Permutation a b ->
             (incomeTransactions a <> [] ->
              median (incomeTransactions a) == median (incomeTransactions b)) ->
             isWindfall (detectWindfall now a) = true ->
             isWindfall (detectWindfall now b) = true).
  { intros a b Hab Hm H. apply isWindfall_iff in H.
    destruct H as (Hlen & t & Hin & Ht). apply isWindfall_iff.
    split.
    - rewrite <- (Permutation_length (incomes_perm _ _ Hab)). exact Hlen.
    - exists t. split; [eapply Permutation_in; eassumption|].
      rewrite <- (isRecentLargeDeposit_comp now _ _ t
                    (Hm (enough_nonempty a Hlen))).
      exact Ht. }
  destruct (isWindfall (detectWindfall now transactions)) eqn:A.
  - symmetry. apply (Hdir transactions transactions' Hp Hmed A).
  - destruct (isWindfall (detectWindfall now transactions')) eqn:B;
      [|reflexivity].
    assert (Hmed' : incomeTransactions transactions' <> [] ->
                    median (incomeTransactions transactions')
                    == median (incomeTransactions transactions)).
    { apply median_perm, Permutation_sym, Hi. }
    rewrite (Hdir transactions' transactions (Permutation_sym Hp) Hmed' B) in A.
    discriminate.
Qed.

Lemma windfall_detection_order_independent_witness :
  isWindfall (detectWindfall Fixtures.today Fixtures.paychecks_and_bonus)
  = isWindfall (detectWindfall Fixtures.today
                  (rev Fixtures.paychecks_and_bonus)).
Proof.
  apply (windfall_detection_order_independent Fixtures.today
           Fixtures.paychecks_and_bonus (rev Fixtures.paychecks_and_bonus)).
  apply Permutation_rev.
Defined.

(** X4: when every credit has the same amount, no windfall is detected,
    whatever the dates and the debits are. *)
Theorem steady_income_no_windfall
    (now : Z) (transactions : list transaction) (c : Q) :
  (forall t q, In t transactions -> t_amount t = Some q -> q < 0 ->
               Qabs q == c) ->
  isWindfall (detectWindfall now transactions) = false.
Proof.
  intro Hall.
  destruct (isWindfall (detectWindfall now transactions)) eqn:E; [|reflexivity].
  exfalso. apply isWindfall_iff in E. destruct E as (Hlen & t & Hin & Ht).
  pose proof (median_in _ (enough_nonempty _ Hlen)) as Hm.
  destruct (incomes_inv _ _ Hm) as (t' & q' & Hin' & Ha' & Hq' & Hmq).
  unfold isRecentLargeDeposit, lt0, absAmount in Ht.
  destruct (t_amount t) as [q|] eqn:Ha; [|discriminate]. simpl in Ht.
  apply andb_true_iff in Ht. destruct Ht as [Ht _].
  apply andb_true_iff in Ht. destruct Ht as [Hq Ht].
  apply Qltb_lt in Hq, Ht.
  rewrite Hmq in Ht.
  rewrite (Hall t q Hin Ha Hq), (Hall t' q' Hin' Ha' Hq') in Ht.
  assert (Hc : 0 < c).
  { rewrite <- (Hall t q Hin Ha Hq). apply Qabs_of_negative, Hq. }
  apply (Qlt_irrefl c). eapply Qle_lt_trans; [|exact Ht].
  setoid_replace c with (c * 1) at 1 by ring.
  apply Qmult_le_l; [exact Hc|]. discriminate.
Qed.

Lemma steady_income_no_windfall_witness :
  isWindfall
    (detectWindfall Fixtures.today
       [ Fixtures.txn (-500) 40 None; Fixtures.txn (-500) 26 None;
         Fixtures.txn 80 5 None; Fixtures.txn (-500) 12 None ]) = false.
Proof.
  apply (steady_income_no_windfall Fixtures.today _ 500).
  intros t q Hin Ha Hq.
  simpl in Hin.
  destruct Hin as [<-|[<-|[<-|[<-|[]]]]]; simpl in Ha;
    injection Ha as <-; try reflexivity.
  exfalso. vm_compute in Hq. discriminate.
Defined.

(** X5: the sign convention.  Only credits (negative amounts) count for
    the windfall detector and only debits (positive amounts) for the weekly
    sweep; no amount is both. *)
Theorem sign_convention (now : Z) (transactions : list transaction) :
  detectWindfall now (filter (fun t => lt0 (t_amount t)) transactions)
  = detectWindfall now transactions /\
  Sweep.analyzeWeeklySweep now (filter (fun t => gt0 (t_amount t)) transactions)
  = Sweep.analyzeWeeklySweep now transactions /\
  (forall t, lt0 (t_amount t) && gt0 (t_amount t) = false).
Proof.
  split; [|split].
  - unfold detectWindfall, recentLargeDeposits, incomeTransactions.
    rewrite (NormalizerFacts.filter_absorb
               (fun t => lt0 (t_amount t)) (fun t => lt0 (t_amount t)))
      by tauto.
    rewrite (NormalizerFacts.filter_absorb
               (isRecentLargeDeposit now _) (fun t => lt0 (t_amount t))).
    + reflexivity.
    + intros t H. unfold isRecentLargeDeposit in H.
      apply andb_true_iff in H. destruct H as [H _].
      apply andb_true_iff in H. tauto.
  - unfold Sweep.analyzeWeeklySweep, Sweep.avgWeeklySpending,
      Sweep.thisWeekSpending, Sweep.last4WeeksTransactions.
    rewrite (NormalizerFacts.filter_absorb
               (Sweep.inThisWeek now) (fun t => gt0 (t_amount t))).
    + rewrite (NormalizerFacts.filter_absorb
                 (Sweep.inLast4Weeks now) (fun t => gt0 (t_amount t))).
      * reflexivity.
      * intros t H. unfold Sweep.inLast4Weeks in H.
        apply andb_true_iff in H. destruct H as [H _].
        apply andb_true_iff in H. tauto.
    + intros t H. unfold Sweep.inThisWeek in H.
      apply andb_true_iff in H. tauto.
  - intro t. unfold lt0, gt0. destruct (t_amount t) as [q|]; [|reflexivity].
    destruct (Qltb q 0) eqn:A; [|reflexivity]. simpl.
    apply Qltb_lt in A. apply Qltb_ge. apply Qlt_le_weak. exact A.
Qed.

End WindfallMore.

(** ** More on the weekly sweep *)

Module SweepMore.
Import Js Windfall Sweep JsFacts SweepFacts.

Lemma sumAmounts_nonneg (l : list transaction) :
  (forall t, In t l -> gt0 (t_amount t) = true) -> 0 <= sumAmounts l.
Proof.
  induction l as [|t l IH]; intro H.
  - apply Qle_refl.
  - rewrite sumAmounts_cons.
    assert (Ht : 0 <= valueOf (t_amount t)).
    { specialize (H t (or_introl eq_refl)). unfold gt0 in H.
      destruct (t_amount t) as [q|]; [|discriminate].
      apply Qltb_lt in H. apply Qlt_le_weak. exact H. }
    assert (Hl : 0 <= sumAmounts l)
      by (apply IH; intros u Hu; apply H; right; exact Hu).
    setoid_replace 0 with (0 + 0) by ring.
    apply Qplus_le_compat; assumption.
Qed.

Lemma thisWeekSpending_nonneg (now : Z) (transactions : list transaction) :
  0 <= thisWeekSpending now transactions.
Proof.
  apply sumAmounts_nonneg. intros t H. apply filter_In in H.
  destruct H as [_ H]. unfold inThisWeek in H.
  apply andb_true_iff in H. tauto.
Qed.




(** X7: when a sweep is offered, the underspend is above 5 and at most the
    weekly average, so the suggested savings are above 2.50 and at most half
    the weekly average; this week's spending is never negative. *)
Theorem sweep_suggestion_bounds
    (now : Z) (transactions : list transaction) (s : sweep) :
  analyzeWeeklySweep now transactions = HasSweep s ->
  0 <= sw_thisWeekSpending s /\
  5 < sw_unspentAmount s /\
  sw_unspentAmount s <= sw_avgWeeklySpending s /\
  2.5 < sw_suggestedSavings s /\
  sw_suggestedSavings s * 2 <= sw_avgWeeklySpending s.
Proof.
  unfold analyzeWeeklySweep.
  destruct (last4WeeksTransactions now transactions); [discriminate|].
  set (a := avgWeeklySpending now transactions).
  pose proof (thisWeekSpending_nonneg now transactions) as Hw.
  set (w := thisWeekSpending now transactions) in *.
  destruct (Qltb 5 (a - w)) eqn:E; [|discriminate].
  apply Qltb_lt in E. intro H. injection H as <-. simpl.
  assert (Hu : a - w <= a).
  { setoid_replace a with (a - 0) at 2 by ring.
    apply Qplus_le_r. apply Qopp_le_compat. exact Hw. }
  split; [exact Hw|].
  split; [exact E|].
  split; [exact Hu|].
  split.
  - setoid_replace 2.5 with (5 * 0.5) by reflexivity.
    apply Qmult_lt_r; [reflexivity|exact E].
  - setoid_replace ((a - w) * 0.5 * 2) with (a - w) by ring. exact Hu.
Qed.

(** The underspend of a reported sweep is above 5 and the suggestion is
    half of it. *)
Lemma sweep_suggestion_bounds_aux
    (now : Z) (transactions : list transaction) (s : sweep) :
  analyzeWeeklySweep now transactions = HasSweep s ->
  5 < sw_unspentAmount s /\
  sw_suggestedSavings s == sw_unspentAmount s * 0.5.
Proof.
  unfold analyzeWeeklySweep.
  destruct (last4WeeksTransactions now transactions); [discriminate|].
  destruct (Qltb 5 _) eqn:E; [|discriminate].
  apply Qltb_lt in E. intro H. injection H as <-. simpl.
  split; [exact E|reflexivity].
Qed.

Lemma sweep_suggestion_bounds_witness :
  exists s,
    analyzeWeeklySweep Fixtures.today Fixtures.quiet_week = HasSweep s /\
    sw_suggestedSavings s * 2 <= sw_avgWeeklySpending s.
Proof.
  eexists. split; [vm_compute; reflexivity|].
  refine (let H := sweep_suggestion_bounds Fixtures.today
                     Fixtures.quiet_week _ eq_refl in _).
  destruct H as (_ & _ & _ & _ & H). exact H.
Defined.

End SweepMore.

(** ** Prompts and the combined analysis *)

Module PromptFacts.
Import Js Windfall Sweep Prompts JsFacts WindfallMore SweepMore.



(** X9: the sweep prompt offers three options worth half of the underspend,
    a quarter of it, and nothing; none is negative and none exceeds the
    underspend. *)
Theorem sweep_prompt_options_within_underspend
    (now : Z) (transactions : list transaction) (s : sweep) :
  analyzeWeeklySweep now transactions = HasSweep s ->
  (exists o1 o2 o3,
     sp_options (generateSweepPrompt s) = [o1; o2; o3] /\
     value o1 == sw_unspentAmount s / 2 /\
     value o2 == sw_unspentAmount s / 4 /\
     value o3 == 0) /\
  (forall o, In o (sp_options (generateSweepPrompt s)) ->
             0 <= value o /\ value o <= sw_unspentAmount s).
Proof.
  intro H.
  destruct (sweep_suggestion_bounds_aux now transactions s H) as (Hu & Hs).
  assert (Hhalf : forall x : Q, x / 2 == x * (1 # 2)) by (intro; field).
  assert (Hquarter : forall x : Q, x / 4 == x * (1 # 4)) by (intro; field).
  split.
  - do 3 eexists. split; [reflexivity|]. simpl.
    rewrite !Hhalf, Hquarter. repeat split; lra.
  - intros o Ho. simpl in Ho.
    destruct Ho as [<-|[<-|[<-|[]]]]; simpl; rewrite ?Hhalf; split; lra.
Qed.

Lemma sweep_prompt_options_witness :
  exists s,
    analyzeWeeklySweep Fixtures.today Fixtures.quiet_week = HasSweep s /\
    (forall o, In o (sp_options (generateSweepPrompt s)) ->
               0 <= value o /\ value o <= sw_unspentAmount s).
Proof.
  eexists. split; [vm_compute; reflexivity|].
  exact (proj2 (sweep_prompt_options_within_underspend Fixtures.today
                  Fixtures.quiet_week _ eq_refl)).
Defined.

Lemma windfall_savings_positive
    (now : Z) (transactions : list transaction) (w : windfall) :
  detectWindfall now transactions = IsWindfall w -> 0 < suggestedSavings w.
Proof.
  intro H. destruct (detectWindfall_inv _ _ _ H) as (Hlen & t & rest & F & ->).
  simpl.
  assert (Hpos : 0 < median (incomeTransactions transactions)).
  { eapply incomes_positive, MedianFacts.median_in, enough_nonempty, Hlen. }
  assert (Hf : In t (filter (isRecentLargeDeposit now
                               (median (incomeTransactions transactions)))
                            transactions))
    by (rewrite F; left; reflexivity).
  apply filter_In in Hf. destruct Hf as [_ Ht].
  unfold isRecentLargeDeposit in Ht.
  apply andb_true_iff in Ht. destruct Ht as [Ht _].
  apply andb_true_iff in Ht. destruct Ht as [_ Ht].
  apply Qltb_lt in Ht. lra.
Qed.

(** Decides whether an opportunity of a given type is listed. *)
Ltac listed_type :=
  let Hd := fresh "Hd" in
  let o := fresh "o" in
  let Ho := fresh "Ho" in
  let Ht := fresh "Ht" in
  split;
  [ intro Hd; try discriminate Hd;
    solve [ eexists; split; [left; reflexivity|reflexivity]
          | eexists; split; [right; left; reflexivity|reflexivity] ]
  | intros (o & Ho & Ht); repeat (destruct Ho as [<-|Ho]);
    try contradiction; try discriminate Ht; reflexivity ].

(** X10: in the combined analysis the opportunities are listed by priority,
    a windfall (priority 1) before a sweep (priority 2); each flag of the
    summary is set exactly when an opportunity of that type is listed; and
    the total potential savings are the sum of the suggested savings of the
    listed opportunities, zero when none is listed and positive otherwise. *)
Theorem analysis_summary_matches_opportunities
    (now : Z) (transactions : list transaction) :
  totalPotentialSavings (runTriplePlayAnalysis now transactions)
  == fold_right (fun o acc => op_suggestedSavings o + acc) 0
       (opportunities (runTriplePlayAnalysis now transactions)) /\
  StronglySorted Z.lt
    (map op_priority (opportunities (runTriplePlayAnalysis now transactions))) /\
  (forall o, In o (opportunities (runTriplePlayAnalysis now transactions)) ->
     (op_type o = "windfall"%string /\ op_priority o = 1%Z) \/
     (op_type o = "sweep"%string /\ op_priority o = 2%Z)) /\
  (windfallDetected (runTriplePlayAnalysis now transactions) = true <->
   exists o, In o (opportunities (runTriplePlayAnalysis now transactions)) /\
             op_type o = "windfall"%string) /\
  (sweepAvailable (runTriplePlayAnalysis now transactions) = true <->
   exists o, In o (opportunities (runTriplePlayAnalysis now transactions)) /\
             op_type o = "sweep"%string) /\
  (opportunities (runTriplePlayAnalysis now transactions) = [] ->
   totalPotentialSavings (runTriplePlayAnalysis now transactions) == 0) /\
  (opportunities (runTriplePlayAnalysis now transactions) <> [] ->
   0 < totalPotentialSavings (runTriplePlayAnalysis now transactions)).
Proof.
  unfold runTriplePlayAnalysis. simpl.
  pose proof (windfall_savings_positive now transactions) as Hw.
  pose proof (sweep_suggestion_bounds_aux now transactions) as Hs.
  destruct (detectWindfall now transactions) as [rw|w];
    destruct (analyzeWeeklySweep now transactions) as [rs|sw]; simpl;
    try (specialize (Hw w eq_refl));
    try (destruct (Hs sw eq_refl) as [Hu Hh]);
    (split; [lra|]);
    (split; [repeat constructor; lia|]);
    (split; [intros o Ho; repeat (destruct Ho as [<-|Ho]);
             try contradiction; simpl; auto|]);
    (split; [listed_type|]);
    (split; [listed_type|]);
    (split; [intro Hn; try discriminate Hn; lra
            |intro Hn; try congruence; lra]).
Qed.

End PromptFacts.

(** ** More on the soft lock *)

Module SoftLockMore.
Import Js SoftLock StatusRoute Ledger JsFacts SoftLockFacts.

(** What follows holds for a server in any time zone [tz]. *)
Section Zone.
Context {tz : timezone}.

Lemma hours_monotone (now now' : Z) (r : withdrawal_request) :
  (now <= now')%Z -> hoursSinceRequest now r <= hoursSinceRequest now' r.
Proof.
  intro H. unfold hoursSinceRequest. generalize (requestTime r). intro c.
  unfold Qle, Qdiv, Qmult, Qinv, inject_Z. simpl. lia.
Qed.

Lemma hours_nonneg (now : Z) (r : withdrawal_request) :
  (requestTime r <= now)%Z -> 0 <= hoursSinceRequest now r.
Proof.
  unfold hoursSinceRequest. generalize (requestTime r). intros c H.
  unfold Qle, Qdiv, Qmult, Qinv, inject_Z. simpl. lia.
Qed.

Lemma ceiling_positive (x : Q) : 0 < x -> (1 <= Qceiling x)%Z.
Proof.
  intro H. destruct (Z_lt_le_dec 0 (Qceiling x)) as [Hc|Hc]; [lia|].
  exfalso. pose proof (Qle_ceiling x) as Hx.
  assert (Hz : inject_Z (Qceiling x) <= 0).
  { rewrite (Zle_Qle (Qceiling x) 0) in Hc. exact Hc. }
  lra.
Qed.

Lemma ceiling_upper (x : Q) (z : Z) : x <= inject_Z z -> (Qceiling x <= z)%Z.
Proof.
  intro H. rewrite <- (Qceiling_Z z). apply Qceiling_resp_le. exact H.
Qed.

(** What the check does once the vault and its newest Pending request are
    known. *)
Lemma checkSoftLock_with_request
    (vaultId : string) (amt : Q) (now : Z) (s : db)
    (vault : account) (r : withdrawal_request) :
  select_vault vaultId s = Some vault ->
  select_pending vaultId s = Some r ->
  fst (checkSoftLock vaultId amt now s)
  = if Qle_bool 24 (hoursSinceRequest now r) then
      LockAllowed "Withdrawal unlocked after 24-hour cooling period" (id r)
    else
      LockCooling "cooling_period" (Qceiling (24 - hoursSinceRequest now r))
        ("Withdrawal will be available in "
         ++ Z_to_string (Qceiling (24 - hoursSinceRequest now r))
         ++ " hours")%string.
Proof.
  intros Hv Hp. unfold checkSoftLock, bind, dbGet, ret. rewrite Hv, Hp.
  destruct (Qle_bool 24 (hoursSinceRequest now r)); reflexivity.
Qed.

(** X11: on an unchanged store the answer of the check does not depend on
    the requested amount, an allowed answer stays allowed at any later time
    (there is no expiry), and a cooling answer becomes, later on, either
    allowed or cooling with no more hours remaining than before. *)
Theorem cooling_countdown_never_increases
    (vaultId : string) (amt amt' : Q) (now now' : Z) (s : db) :
  (now <= now')%Z ->
  fst (checkSoftLock vaultId amt now s) = fst (checkSoftLock vaultId amt' now s) /\
  (forall m i,
     fst (checkSoftLock vaultId amt now s) = LockAllowed m i ->
     fst (checkSoftLock vaultId amt' now' s) = LockAllowed m i) /\
  (forall why h msg,
     fst (checkSoftLock vaultId amt now s) = LockCooling why h msg ->
     (exists m i, fst (checkSoftLock vaultId amt' now' s) = LockAllowed m i) \/
     (exists h' msg',
        fst (checkSoftLock vaultId amt' now' s) = LockCooling why h' msg' /\
        (h' <= h)%Z)).
Proof.
  intro Hle. unfold checkSoftLock, bind, dbGet, ret.
  destruct (select_vault vaultId s) as [vault|];
    [|split; [reflexivity|split; intros; discriminate]].
  destruct (select_pending vaultId s) as [r|];
    [|split; [reflexivity|split; intros; discriminate]].
  pose proof (hours_monotone now now' r Hle) as Hm.
  split; [reflexivity|]. split.
  - intros m i. simpl.
    destruct (Qle_bool 24 (hoursSinceRequest now r)) eqn:A; [|discriminate].
    apply Qle_bool_iff in A.
    assert (B : Qle_bool 24 (hoursSinceRequest now' r) = true)
      by (apply Qle_bool_iff; lra).
    rewrite B. tauto.
  - intros why h msg. simpl.
    destruct (Qle_bool 24 (hoursSinceRequest now r)) eqn:A; [discriminate|].
    intro H. injection H as <- <- _.
    destruct (Qle_bool 24 (hoursSinceRequest now' r)) eqn:B.
    + left. eexists; eexists; reflexivity.
    + right. eexists; eexists. split; [reflexivity|].
      apply Qceiling_resp_le. lra.
Qed.

(** X12: the hours remaining of a cooling answer are at least 1.  They
    are at most 24 when the server reads no request of the store as
    created after the time of the check; for requests stored at or before
    that time this is so on a server in UTC or east of it. *)
Theorem cooling_hours_remaining_bounds
    (vaultId : string) (amt : Q) (now : Z) (s : db)
    (why : string) (h : Z) (msg : string) :
  fst (checkSoftLock vaultId amt now s) = LockCooling why h msg ->
  (1 <= h)%Z /\
  ((forall p, In p (withdrawal_requests s) -> (requestTime p <= now)%Z) ->
   (h <= 24)%Z) /\
  ((forall p, In p (withdrawal_requests s) ->
      (created_at p <= now)%Z /\ (0 <= localTZA (created_at p))%Z) ->
   (h <= 24)%Z).
Proof.
  unfold checkSoftLock, bind, dbGet, ret.
  destruct (select_vault vaultId s) as [vault|]; [|discriminate].
  pose proof (select_pending_spec vaultId s) as Hsel.
  destruct (select_pending vaultId s) as [r|]; [|discriminate].
  destruct Hsel as (Hin & _). simpl.
  destruct (Qle_bool 24 (hoursSinceRequest now r)) eqn:A; [discriminate|].
  intro H. injection H as _ <- _.
  assert (Hlt : hoursSinceRequest now r < 24).
  { apply Qnot_le_lt. intro L. apply Qle_bool_iff in L. congruence. }
  assert (Hup : (requestTime r <= now)%Z ->
               (Qceiling (24 - hoursSinceRequest now r) <= 24)%Z).
  { intro Hpast. apply ceiling_upper.
    pose proof (hours_nonneg now r Hpast) as H0.
    change (inject_Z 24) with 24. lra. }
  split; [|split].
  - apply ceiling_positive. lra.
  - intro Hpast. apply Hup, Hpast, Hin.
  - intro Hpast. apply Hup. destruct (Hpast r Hin) as [Hc Ho].
    rewrite requestTime_offset. lia.
Qed.

(** An id found among the vaults is found among the accounts. *)
Lemma select_vault_account (vaultId : string) (s : db) (vault : account) :
  select_vault vaultId s = Some vault ->
  exists a, select_account vaultId s = Some a.
Proof.
  unfold select_vault, select_account.
  induction (increase_accounts s) as [|a l IH]; simpl; [discriminate|].
  destruct (String.eqb (increase_account_id a) vaultId); simpl.
  - intros _. eexists; reflexivity.
  - exact IH.
Qed.

Lemma no_pending_filter (vaultId : string) (s : db) :
  (forall p, In p (withdrawal_requests s) ->
             vault_id p = vaultId -> status p <> "pending"%string) ->
  filter (is_pending_for vaultId) (withdrawal_requests s) = [].
Proof.
  intro H. apply MedianFacts.filter_none. intros p Hp.
  destruct (is_pending_for vaultId p) eqn:E; [|reflexivity].
  apply is_pending_for_spec in E. destruct E as [Hv Hs].
  exfalso. exact (H p Hp Hv Hs).
Qed.

Lemma current_timestamp_le (now : Z) : (current_timestamp now <= now)%Z.
Proof. unfold current_timestamp. apply Z.mul_div_le. lia. Qed.

Lemma current_timestamp_gt (now : Z) : (now < current_timestamp now + 1000)%Z.
Proof.
  unfold current_timestamp.
  pose proof (Z.div_mod now 1000 ltac:(lia)) as Hdm.
  pose proof (Z.mod_pos_bound now 1000 ltac:(lia)) as Hb.
  lia.
Qed.

(** X13: when a request is created for a vault that had no Pending
    request, the caller is told it is available 24 hours after [now].  The
    check unlocks it 24 hours after the stored creation text read in the
    zone of the server: from then on it answers allowed, tagged with the
    id of the new request, and before that cooling_period.  On a server in
    UTC or east of it that time is no later than the one told to the
    caller; a second or more west of UTC it is later. *)
Theorem created_request_unlocks_by_the_local_reading
    (vaultId : string) (amt : Q) (why : option string) (now : Z) (s : db) :
  (exists a, In a (increase_accounts s) /\
             increase_account_id a = vaultId /\
             account_type a = "vault"%string) ->
  (forall p, In p (withdrawal_requests s) ->
             vault_id p = vaultId -> status p <> "pending"%string) ->
  (exists impact,
     fst (createWithdrawalRequest vaultId amt why now s)
     = Created "24-hour cooling period started" impact
         (now + 24 * 60 * 60 * 1000)%Z) /\
  (forall t amt',
     (parseLocal (current_timestamp now) + 24 * 60 * 60 * 1000 <= t)%Z ->
     fst (checkSoftLock vaultId amt' t
            (snd (createWithdrawalRequest vaultId amt why now s)))
     = LockAllowed "Withdrawal unlocked after 24-hour cooling period"
         (next_id (withdrawal_requests s))) /\
  (forall t amt',
     (t < parseLocal (current_timestamp now) + 24 * 60 * 60 * 1000)%Z ->
     exists h msg,
       fst (checkSoftLock vaultId amt' t
              (snd (createWithdrawalRequest vaultId amt why now s)))
       = LockCooling "cooling_period" h msg) /\
  ((0 <= localTZA (current_timestamp now))%Z ->
   (parseLocal (current_timestamp now) + 24 * 60 * 60 * 1000
    <= now + 24 * 60 * 60 * 1000)%Z) /\
  ((localTZA (current_timestamp now) <= -1000)%Z ->
   (now + 24 * 60 * 60 * 1000
    < parseLocal (current_timestamp now) + 24 * 60 * 60 * 1000)%Z).
Proof.
  intros Hvault Hnone.
  destruct (select_vault_some vaultId s Hvault) as (v & Hv & _).
  destruct (select_vault_account vaultId s v Hv) as (a & Ha).
  unfold createWithdrawalRequest, bind, dbGet, dbRun, ret. rewrite Ha. simpl.
  set (impact := impactMessage a amt).
  set (reasonText := match why with Some r => r | None => EmptyString end).
  set (s' := insert_request vaultId amt reasonText impact now s).
  set (row := {| id := next_id (withdrawal_requests s);
                 vault_id := vaultId; amount := amt; reason := reasonText;
                 status := "pending"; impact_message := impact;
                 created_at := current_timestamp now;
                 completed_at := None |}).
  assert (Hv' : select_vault vaultId s' = Some v) by exact Hv.
  assert (Hp' : select_pending vaultId s' = Some row).
  { unfold select_pending, s', insert_request. simpl.
    rewrite filter_app, (no_pending_filter vaultId s Hnone). simpl.
    unfold is_pending_for. simpl. rewrite String.eqb_refl. reflexivity. }
  assert (Hrow : requestTime row = parseLocal (current_timestamp now))
    by reflexivity.
  pose proof (current_timestamp_le now) as Hts.
  pose proof (current_timestamp_gt now) as Htg.
  split; [eexists; reflexivity|]. split; [|split; [|split]].
  - intros t amt' Ht.
    rewrite (checkSoftLock_with_request vaultId amt' t s' v row Hv' Hp').
    assert (H24 : 24 <= hoursSinceRequest t row).
    { apply hours_at_least_24. rewrite Hrow. lia. }
    apply Qle_bool_iff in H24. rewrite H24. reflexivity.
  - intros t amt' Ht.
    rewrite (checkSoftLock_with_request vaultId amt' t s' v row Hv' Hp').
    assert (H24 : hoursSinceRequest t row < 24).
    { apply hours_below_24. rewrite Hrow. lia. }
    destruct (Qle_bool 24 (hoursSinceRequest t row)) eqn:B.
    + apply Qle_bool_iff in B. exfalso. lra.
    + eexists; eexists; reflexivity.
  - intro Ho. unfold parseLocal. lia.
  - intro Ho. unfold parseLocal. lia.
Qed.

(** X14: the status route never writes; the hours it reports are never
    negative and are 0 exactly when it says the withdrawal can be made; and
    for an existing vault it agrees with the check: no active request where
    the check asks for a new request, canWithdraw where the check allows
    (same request id), and otherwise the same hours remaining as the
    cooling answer. *)
Theorem status_route_agrees_with_check
    (vaultId : string) (amt : Q) (now : Z) (s : db) :
  snd (withdrawStatus vaultId now s) = s /\
  match fst (withdrawStatus vaultId now s) with
  | NoActiveRequest _ =>
      forall vault, select_vault vaultId s = Some vault ->
        lock_reason (fst (checkSoftLock vaultId amt now s))
        = Some "new_request"%string
  | ActiveRequest i _ _ _ _ h can =>
      (0 <= h)%Z /\ (can = true <-> h = 0%Z) /\
      (forall vault, select_vault vaultId s = Some vault ->
         if can then
           fst (checkSoftLock vaultId amt now s)
           = LockAllowed "Withdrawal unlocked after 24-hour cooling period" i
         else
           exists msg,
             fst (checkSoftLock vaultId amt now s)
             = LockCooling "cooling_period" h msg)
  end.
Proof.
  unfold withdrawStatus, bind, dbGet, ret.
  destruct (select_pending vaultId s) as [r|] eqn:Hp; simpl.
  - split; [reflexivity|].
    split; [lia|]. split.
    + destruct (Qle_bool 24 (hoursSinceRequest now r)) eqn:A.
      * apply Qle_bool_iff in A. split; [intros _|reflexivity].
        assert (Hc : (Qceiling (24 - hoursSinceRequest now r) <= 0)%Z).
        { apply ceiling_upper. change (inject_Z 0) with 0. lra. }
        unfold ceil. lia.
      * split; [discriminate|]. intro H0. exfalso.
        assert (Hlt : hoursSinceRequest now r < 24).
        { apply Qnot_le_lt. intro L. apply Qle_bool_iff in L. congruence. }
        assert (Hc : (1 <= Qceiling (24 - hoursSinceRequest now r))%Z)
          by (apply ceiling_positive; lra).
        unfold ceil in H0. lia.
    + intros vault Hv.
      rewrite (checkSoftLock_with_request vaultId amt now s vault r Hv Hp).
      destruct (Qle_bool 24 (hoursSinceRequest now r)) eqn:A; [reflexivity|].
      assert (Hlt : hoursSinceRequest now r < 24).
      { apply Qnot_le_lt. intro L. apply Qle_bool_iff in L. congruence. }
      assert (Hc : (1 <= Qceiling (24 - hoursSinceRequest now r))%Z)
        by (apply ceiling_positive; lra).
      unfold ceil. rewrite Z.max_r by lia. eexists; reflexivity.
  - split; [reflexivity|].
    intros vault Hv. unfold checkSoftLock, bind, dbGet, ret.
    rewrite Hv, Hp. reflexivity.
Qed.

(** *** How a route call changes the store *)

Lemma updateAccountBalance_keys (accountId : string) (b : Q) (s : db) :
  account_keys (updateAccountBalance accountId b s) = account_keys s.
Proof.
  unfold account_keys, updateAccountBalance. simpl.
  rewrite map_map. apply map_ext. intro a.
  destruct (String.eqb (increase_account_id a) accountId); reflexivity.
Qed.

Lemma createAccountTransfer_keys
    (fromAccountId toAccountId : string) (api : transfer_outcome) (s : db) :
  account_keys (snd (createAccountTransfer fromAccountId toAccountId api s))
  = account_keys s.
Proof.
  unfold createAccountTransfer, bind, dbRun, ret.
  destruct (accepted api); [|reflexivity].
  destruct (fromBalance api), (toBalance api); simpl;
    rewrite ?updateAccountBalance_keys; reflexivity.
Qed.

Lemma vault_in_keys (vaultId : string) (s : db) :
  (exists a, In a (increase_accounts s) /\
             increase_account_id a = vaultId /\
             account_type a = "vault"%string)
  <-> In (vaultId, "vault"%string) (account_keys s).
Proof.
  unfold account_keys. rewrite in_map_iff. split.
  - intros (a & Hin & Hi & Ht). exists a. split; [congruence|exact Hin].
  - intros (a & He & Hin). injection He as Hi Ht. exists a. auto.
Qed.

Lemma select_vault_keys (vaultId : string) (s s' : db) :
  account_keys s' = account_keys s ->
  (exists v, select_vault vaultId s = Some v) ->
  exists v', select_vault vaultId s' = Some v'.
Proof.
  intros Hk (v & Hv).
  assert (Hex : exists a, In a (increase_accounts s) /\
                          increase_account_id a = vaultId /\
                          account_type a = "vault"%string).
  { unfold select_vault in Hv. apply find_some in Hv.
    destruct Hv as [Hin Hb]. apply andb_true_iff in Hb.
    destruct Hb as [Hi Ht]. apply String.eqb_eq in Hi, Ht.
    exists v. auto. }
  apply vault_in_keys in Hex. rewrite <- Hk in Hex.
  apply vault_in_keys in Hex.
  destruct (select_vault_some vaultId s' Hex) as (v' & Hv' & _).
  exists v'. exact Hv'.
Qed.

(** The row [mark_completed] writes in place of [r]. *)
Lemma mark_completed_rows (requestId now : Z) (s : db) :
  Forall2 ages_to (withdrawal_requests s)
          (withdrawal_requests (mark_completed requestId now s)) /\
  map id (withdrawal_requests (mark_completed requestId now s))
  = map id (withdrawal_requests s).
Proof.
  unfold mark_completed. simpl.
  induction (withdrawal_requests s) as [|r l [IH1 IH2]]; simpl.
  - split; [constructor|reflexivity].
  - split.
    + constructor; [|exact IH1].
      destruct (id r =? requestId)%Z; unfold ages_to, core; simpl; auto.
    + rewrite IH2. destruct (id r =? requestId)%Z; reflexivity.
Qed.

Lemma checkSoftLock_new_request_inv
    (vaultId : string) (amt : Q) (now : Z) (s : db)
    (why : string) (cooling : bool) (info : vault_info) :
  fst (checkSoftLock vaultId amt now s) = LockNewRequest why cooling info ->
  (exists vault, select_vault vaultId s = Some vault) /\
  select_pending vaultId s = None.
Proof.
  unfold checkSoftLock, bind, dbGet, ret.
  destruct (select_vault vaultId s) as [vault|]; [|discriminate].
  destruct (select_pending vaultId s) as [r|].
  - simpl. destruct (Qle_bool 24 (hoursSinceRequest now r)); discriminate.
  - intros _. split; [eexists; reflexivity|reflexivity].
Qed.

(** The request route leaves the store alone or appends one Pending
    request for a vault that had none. *)
Lemma withdrawRequest_store
    (v : string) (a : Q) (w : option string) (now : Z) (s : db) :
  snd (withdrawRequest v a w now s) = s \/
  (exists why impact,
     (exists vault, select_vault v s = Some vault) /\
     select_pending v s = None /\
     snd (withdrawRequest v a w now s) = insert_request v a why impact now s).
Proof.
  assert (H : exists s',
             snd (withdrawRequest v a w now s) = s' /\
             (s' = s \/
              exists why impact,
                (exists vault, select_vault v s = Some vault) /\
                select_pending v s = None /\
                s' = insert_request v a why impact now s)).
  { unfold withdrawRequest.
    destruct (String.eqb v "" || Qeq_bool a 0); [exists s; auto|].
    unfold bind at 1. rewrite checkSoftLock_pair.
    destruct (checkSoftLock_shape v a now s)
      as [E|[(m & i & E)|[(h & m & E)|(vi & E & Hnone)]]];
      rewrite E; simpl; try (exists s; auto; fail).
    destruct (checkSoftLock_new_request_inv v a now s _ _ _ E) as [Hv _].
    destruct Hv as (vault & Hv).
    destruct (select_vault_account v s vault Hv) as (acc & Ha).
    unfold bind, ret, createWithdrawalRequest, bind, dbGet, dbRun, ret.
    rewrite Ha. simpl. eexists. split; [reflexivity|].
    right. do 2 eexists.
    split; [eexists; exact Hv|]. split; [exact Hnone|reflexivity]. }
  destruct H as (s' & -> & H). exact H.
Qed.

(** The execute route keeps the ids and types of the accounts and either
    leaves the requests alone or completes those of one id. *)
Lemma withdrawExecute_store
    (v t : string) (a : Q) (rid : option Z) (api : transfer_outcome)
    (now : Z) (s : db) :
  account_keys (snd (withdrawExecute v t a rid api now s)) = account_keys s /\
  (withdrawal_requests (snd (withdrawExecute v t a rid api now s))
   = withdrawal_requests s \/
   exists requestId,
     withdrawal_requests (snd (withdrawExecute v t a rid api now s))
     = withdrawal_requests (mark_completed requestId now s)).
Proof.
  assert (H : exists s',
             snd (withdrawExecute v t a rid api now s) = s' /\
             account_keys s' = account_keys s /\
             (withdrawal_requests s' = withdrawal_requests s \/
              exists requestId,
                withdrawal_requests s'
                = withdrawal_requests (mark_completed requestId now s))).
  { unfold withdrawExecute.
    destruct (String.eqb v "" || String.eqb t "" || Qeq_bool a 0);
      [exists s; auto|].
    unfold bind at 1. rewrite checkSoftLock_pair.
    destruct (negb (allowed (fst (checkSoftLock v a now s))));
      [exists s; auto|].
    unfold bind at 1.
    pose proof (createAccountTransfer_requests v t api s) as Hreq.
    pose proof (createAccountTransfer_keys v t api s) as Hkeys.
    destruct (createAccountTransfer v t api s) as [ok s1].
    simpl in Hreq, Hkeys. unfold bind, dbRun, ret.
    destruct rid as [requestId|]; simpl; [|exists s1; auto].
    destruct (ok && negb (requestId =? 0)%Z); simpl; [|exists s1; auto].
    eexists. split; [reflexivity|]. split; [exact Hkeys|].
    right. exists requestId. simpl. rewrite Hreq. reflexivity. }
  destruct H as (s' & -> & Hk & Hr). split; assumption.
Qed.

(** A route call leaves the ids and types of the accounts alone, and does
    one of three things to the requests: nothing, completing the requests
    of one id, or appending one Pending request for a vault that had
    none. *)
Lemma handle_store (c : api_call) (s : db) :
  account_keys (snd (handle c s)) = account_keys s /\
  (withdrawal_requests (snd (handle c s)) = withdrawal_requests s \/
   (exists requestId now,
      withdrawal_requests (snd (handle c s))
      = withdrawal_requests (mark_completed requestId now s)) \/
   (exists vaultId amt why impact now,
      (exists vault, select_vault vaultId s = Some vault) /\
      select_pending vaultId s = None /\
      snd (handle c s) = insert_request vaultId amt why impact now s)).
Proof.
  destruct c as [v a w now|v t a rid api now]; simpl.
  - destruct (withdrawRequest_store v a w now s)
      as [->|(why & impact & Hv & Hn & ->)].
    + split; [reflexivity|left; reflexivity].
    + split; [reflexivity|]. right; right.
      exists v, a, why, impact, now. auto.
  - destruct (withdrawExecute_store v t a rid api now s) as [Hk [Hr|(i & Hr)]].
    + split; [exact Hk|left; exact Hr].
    + split; [exact Hk|]. right; left. exists i, now. exact Hr.
Qed.

(** *** Invariants of the request log *)

Lemma next_id_fresh (rows : list withdrawal_request) (i : Z) :
  In i (map id rows) -> (i < next_id rows)%Z.
Proof.
  unfold next_id. induction rows as [|r l IH]; cbn [map fold_right In];
    [intros []|].
  intros [<-|H]; [lia|]. specialize (IH H). lia.
Qed.

Lemma NoDup_snoc {A : Type} (l : list A) (x : A) :
  NoDup l -> ~ In x l -> NoDup (l ++ [x]).
Proof.
  intros Hl Hx. apply (Permutation_NoDup (l := x :: l)).
  - apply Permutation_cons_append.
  - constructor; assumption.
Qed.

Lemma handle_unique_ids (c : api_call) (s : db) :
  unique_ids s -> unique_ids (snd (handle c s)).
Proof.
  unfold unique_ids. intro H.
  destruct (handle_store c s)
    as [_ [Hr|[(i & now & Hr)|(v & a & w & im & now & _ & _ & Hr)]]];
    rewrite Hr.
  - exact H.
  - rewrite (proj2 (mark_completed_rows i now s)). exact H.
  - unfold insert_request. simpl. rewrite map_app. simpl.
    apply NoDup_snoc; [exact H|].
    intro Hin. apply next_id_fresh in Hin. lia.
Qed.

(** X15: request ids stay unique.  If no two requests share an id, none do
    after any sequence of calls to the request and execute routes: every
    created request gets an id larger than all present ones. *)
Theorem routes_keep_ids_unique (calls : list api_call) (s : db) :
  unique_ids s -> unique_ids (serve calls s).
Proof.
  unfold serve. revert s.
  induction calls as [|c calls IH]; intros s Hs; simpl; [exact Hs|].
  apply IH, handle_unique_ids, Hs.
Qed.

Lemma ages_to_refl (l : list withdrawal_request) : Forall2 ages_to l l.
Proof.
  induction l as [|r l IH]; constructor; [|exact IH].
  split; [reflexivity|left; reflexivity].
Qed.

Lemma ages_to_trans (l1 l2 l3 : list withdrawal_request) :
  Forall2 ages_to l1 l2 -> Forall2 ages_to l2 l3 -> Forall2 ages_to l1 l3.
Proof.
  intro H. revert l3.
  induction H as [|a b l1 l2 [Hc Hs] _ IH]; intros l3 H3; inversion H3; subst.
  - constructor.
  - constructor; [|apply IH; assumption].
    match goal with Hab : ages_to b _ |- _ => destruct Hab as [Hc' Hs'] end.
    split; [congruence|].
    destruct Hs' as [Hs'|Hs']; [|right; exact Hs'].
    destruct Hs as [Hs|Hs]; [left|right]; congruence.
Qed.

Lemma handle_append_only (c : api_call) (s : db) :
  exists kept added,
    withdrawal_requests (snd (handle c s)) = kept ++ added /\
    Forall2 ages_to (withdrawal_requests s) kept.
Proof.
  destruct (handle_store c s)
    as [_ [Hr|[(i & now & Hr)|(v & a & w & im & now & _ & _ & Hr)]]];
    rewrite Hr.
  - exists (withdrawal_requests s), []. rewrite app_nil_r.
    split; [reflexivity|apply ages_to_refl].
  - exists (withdrawal_requests (mark_completed i now s)), [].
    rewrite app_nil_r. split; [reflexivity|].
    apply (proj1 (mark_completed_rows i now s)).
  - unfold insert_request. simpl. do 2 eexists.
    split; [reflexivity|apply ages_to_refl].
Qed.

(** X16: the request log is append-only.  After any sequence of calls to
    the request and execute routes, the requests that were in the store are
    still there, in the same order and with the same id, vault, amount,
    reason, impact message and creation time; each has the status it had or
    is completed; new requests come after them. *)
Theorem routes_only_append_requests (calls : list api_call) (s : db) :
  exists kept added,
    withdrawal_requests (serve calls s) = kept ++ added /\
    Forall2 ages_to (withdrawal_requests s) kept.
Proof.
  unfold serve. revert s.
  induction calls as [|c calls IH]; intro s; simpl.
  - exists (withdrawal_requests s), []. rewrite app_nil_r.
    split; [reflexivity|apply ages_to_refl].
  - destruct (handle_append_only c s) as (k1 & a1 & H1 & F1).
    destruct (IH (snd (handle c s))) as (k2 & a2 & H2 & F2).
    rewrite H1 in F2. apply Forall2_app_inv_l in F2.
    destruct F2 as (k2a & k2b & Fa & Fb & ->).
    exists k2a, (k2b ++ a2). split.
    + rewrite H2, app_assoc. reflexivity.
    + eapply ages_to_trans; eassumption.
Qed.

Lemma requests_of_vaults_keys (s : db) :
  requests_of_vaults s <->
  (forall r, In r (withdrawal_requests s) ->
             In (vault_id r, "vault"%string) (account_keys s)).
Proof.
  unfold requests_of_vaults. split; intros H r Hr.
  - apply vault_in_keys, H, Hr.
  - apply vault_in_keys, H, Hr.
Qed.

Lemma Forall2_In_right {A B : Type} (R : A -> B -> Prop)
    (l : list A) (l' : list B) (y : B) :
  Forall2 R l l' -> In y l' -> exists x, In x l /\ R x y.
Proof.
  induction 1 as [|a b l l' Hab _ IH]; intros Hy; [destruct Hy|].
  destruct Hy as [<-|Hy].
  - exists a. split; [left; reflexivity|exact Hab].
  - destruct (IH Hy) as (x & Hx & Hr). exists x. split; [right|]; assumption.
Qed.

Lemma handle_requests_of_vaults (c : api_call) (s : db) :
  requests_of_vaults s -> requests_of_vaults (snd (handle c s)).
Proof.
  rewrite !requests_of_vaults_keys. intro H.
  destruct (handle_store c s)
    as [Hk [Hr|[(i & now & Hr)|(v & a & w & im & now & Hv & _ & Hr)]]].
  - rewrite Hk, Hr. exact H.
  - rewrite Hk, Hr. intros r' Hr'.
    destruct (Forall2_In_right _ _ _ _ (proj1 (mark_completed_rows i now s)) Hr')
      as (r & Hin & Hc & _).
    assert (Hvid : vault_id r = vault_id r')
      by (unfold core in Hc; congruence).
    rewrite <- Hvid. apply H, Hin.
  - rewrite Hr. intros r' Hr'. unfold insert_request in Hr'. simpl in Hr'.
    apply in_app_or in Hr'. destruct Hr' as [Hr'|[<-|[]]].
    + apply H, Hr'.
    + simpl. destruct Hv as (vault & Hv).
      unfold select_vault in Hv. apply find_some in Hv.
      destruct Hv as [Hin Hb]. apply andb_true_iff in Hb.
      destruct Hb as [Hi Ht]. apply String.eqb_eq in Hi, Ht.
      apply vault_in_keys. exists vault. auto.
Qed.

(** X17: through the routes only vaults get withdrawal requests.  If every
    request of the store names an account of type 'vault', that still holds
    after any sequence of calls to the request and execute routes. *)
Theorem routes_request_only_vaults (calls : list api_call) (s : db) :
  requests_of_vaults s -> requests_of_vaults (serve calls s).
Proof.
  unfold serve. revert s.
  induction calls as [|c calls IH]; intros s Hs; simpl; [exact Hs|].
  apply IH, handle_requests_of_vaults, Hs.
Qed.

(** *** The execute route *)

Lemma checkSoftLock_allowed_inv
    (vaultId : string) (amt : Q) (now : Z) (s : db) (m : string) (i : Z) :
  fst (checkSoftLock vaultId amt now s) = LockAllowed m i ->
  exists vault r,
    select_vault vaultId s = Some vault /\
    select_pending vaultId s = Some r /\
    id r = i /\ (requestTime r + 86400000 <= now)%Z.
Proof.
  unfold checkSoftLock, bind, dbGet, ret.
  destruct (select_vault vaultId s) as [vault|]; [|discriminate].
  destruct (select_pending vaultId s) as [r|]; [|discriminate].
  simpl. destruct (Qle_bool 24 (hoursSinceRequest now r)) eqn:A; [|discriminate].
  intro H. injection H as _ <-.
  exists vault, r. repeat split.
  apply hours_at_least_24, Qle_bool_iff, A.
Qed.

(** X18: while the server reads every Pending request of the vault as
    created less than 24 hours ago (in particular when the vault has
    none), a call to the execute route makes no transfer and leaves the
    store as it was. *)
Theorem execute_changes_nothing_while_locked
    (vaultId toAccountId : string) (amt : Q) (withdrawalRequestId : option Z)
    (api : transfer_outcome) (now : Z) (s : db) :
  (forall p, In p (withdrawal_requests s) ->
             vault_id p = vaultId -> status p = "pending"%string ->
             (now < requestTime p + 24 * 60 * 60 * 1000)%Z) ->
  exists answer,
    withdrawExecute vaultId toAccountId amt withdrawalRequestId api now s
    = (answer, s) /\
    (forall ok, answer <> TransferJson ok).
Proof.
  intro Hyoung. unfold withdrawExecute.
  destruct (String.eqb vaultId "" || String.eqb toAccountId ""
            || Qeq_bool amt 0).
  { eexists. split; [reflexivity|]. intros ok; discriminate. }
  unfold bind at 1. rewrite checkSoftLock_pair.
  destruct (allowed (fst (checkSoftLock vaultId amt now s))) eqn:A; simpl.
  - exfalso.
    destruct (fst (checkSoftLock vaultId amt now s)) as [e|m i|w h m|w c v]
      eqn:E; try discriminate.
    destruct (checkSoftLock_allowed_inv vaultId amt now s m i E)
      as (vault & r & _ & Hp & _ & Hold).
    pose proof (select_pending_spec vaultId s) as Hsel. rewrite Hp in Hsel.
    destruct Hsel as (Hin & Hv & Hs & _).
    specialize (Hyoung r Hin Hv Hs). lia.
  - eexists. split; [reflexivity|]. intros ok; discriminate.
Qed.

Lemma createAccountTransfer_accepted
    (fromAccountId toAccountId : string) (api : transfer_outcome) (s : db) :
  accepted api = true ->
  fst (createAccountTransfer fromAccountId toAccountId api s) = true.
Proof.
  intro H. unfold createAccountTransfer, bind, dbRun, ret. rewrite H.
  destruct (fromBalance api), (toBalance api); reflexivity.
Qed.

(** What an accepted execute call with a request id does. *)
Lemma withdrawExecute_done
    (v t : string) (a : Q) (rid : Z) (api : transfer_outcome) (now : Z)
    (s : db) :
  allowed (fst (checkSoftLock v a now s)) = true ->
  v <> EmptyString -> t <> EmptyString -> ~ a == 0 ->
  rid <> 0%Z -> accepted api = true ->
  exists s1,
    withdrawal_requests s1 = withdrawal_requests s /\
    account_keys s1 = account_keys s /\
    withdrawExecute v t a (Some rid) api now s
    = (TransferJson true, mark_completed rid now s1).
Proof.
  intros Hal Hv Ht Ha Hrid Hacc. unfold withdrawExecute.
  assert (Gv : String.eqb v "" = false) by (apply String.eqb_neq; exact Hv).
  assert (Gt : String.eqb t "" = false) by (apply String.eqb_neq; exact Ht).
  assert (Ga : Qeq_bool a 0 = false).
  { destruct (Qeq_bool a 0) eqn:E; [|reflexivity].
    apply Qeq_bool_iff in E. contradiction. }
  rewrite Gv, Gt, Ga. simpl.
  unfold bind at 1. rewrite checkSoftLock_pair. rewrite Hal. simpl.
  unfold bind at 1.
  pose proof (createAccountTransfer_requests v t api s) as Hreq.
  pose proof (createAccountTransfer_keys v t api s) as Hkeys.
  pose proof (createAccountTransfer_accepted v t api s Hacc) as Hok.
  destruct (createAccountTransfer v t api s) as [ok s1].
  simpl in Hreq, Hkeys, Hok. subst ok.
  assert (Gr : (rid =? 0)%Z = false) by (apply Z.eqb_neq; exact Hrid).
  unfold bind, dbRun, ret. rewrite Gr. simpl.
  exists s1. auto.
Qed.

Lemma single_pending_selected
    (vaultId : string) (s : db) (r x : withdrawal_request) :
  single_pending s ->
  select_pending vaultId s = Some r ->
  In x (withdrawal_requests s) -> is_pending_for vaultId x = true -> x = r.
Proof.
  intros Hs Hp Hx Hpx. specialize (Hs vaultId).
  unfold pending_count in Hs. unfold select_pending in Hp.
  pose proof (newest_spec (filter (is_pending_for vaultId) (withdrawal_requests s)))
    as Hn.
  rewrite Hp in Hn. destruct Hn as [Hr _].
  assert (Hxf : In x (filter (is_pending_for vaultId) (withdrawal_requests s)))
    by (apply filter_In; split; assumption).
  destruct (filter (is_pending_for vaultId) (withdrawal_requests s))
    as [|y [|z l]]; simpl in Hs.
  - destruct Hr.
  - destruct Hr as [<-|[]]. destruct Hxf as [<-|[]]. reflexivity.
  - lia.
Qed.

(** X19: the life cycle closes.  With at most one Pending request per vault,
    when the check allows a withdrawal and the execute route is called with
    the id the check returned and the transfer is accepted, the vault has
    no Pending request afterwards and the next check asks for a new
    request. *)
Theorem execute_with_checked_id_closes_request
    (v t : string) (a : Q) (api : transfer_outcome) (now : Z) (s : db)
    (m : string) (i : Z) :
  single_pending s ->
  fst (checkSoftLock v a now s) = LockAllowed m i ->
  v <> EmptyString -> t <> EmptyString -> ~ a == 0 ->
  i <> 0%Z -> accepted api = true ->
  fst (withdrawExecute v t a (Some i) api now s) = TransferJson true /\
  pending_count v (snd (withdrawExecute v t a (Some i) api now s)) = 0%nat /\
  (forall a' now',
     lock_reason
       (fst (checkSoftLock v a' now'
               (snd (withdrawExecute v t a (Some i) api now s))))
     = Some "new_request"%string).
Proof.
  intros Hs E Hv Ht Ha Hi Hacc.
  assert (Hal : allowed (fst (checkSoftLock v a now s)) = true)
    by (rewrite E; reflexivity).
  destruct (withdrawExecute_done v t a i api now s Hal Hv Ht Ha Hi Hacc)
    as (s1 & Hreq & Hkeys & ->). simpl.
  destruct (checkSoftLock_allowed_inv v a now s m i E)
    as (vault & r & Hsv & Hp & Hid & _).
  assert (Hnone : filter (is_pending_for v)
                    (withdrawal_requests (mark_completed i now s1)) = []).
  { unfold mark_completed. simpl. rewrite Hreq.
    apply MedianFacts.filter_none. intros x' Hx'.
    apply in_map_iff in Hx'. destruct Hx' as (x & <- & Hx).
    destruct (id x =? i)%Z eqn:B.
    - unfold is_pending_for. simpl. apply andb_false_r.
    - destruct (is_pending_for v x) eqn:P; [|reflexivity].
      exfalso. apply Z.eqb_neq in B. apply B.
      rewrite (single_pending_selected v s r x Hs Hp Hx P). exact Hid. }
  split; [reflexivity|]. split.
  - unfold pending_count. rewrite Hnone. reflexivity.
  - intros a' now'.
    destruct (select_vault_keys v s (mark_completed i now s1))
      as (v' & Hv').
    + unfold mark_completed, account_keys. simpl. exact Hkeys.
    + eexists; exact Hsv.
    + unfold checkSoftLock, bind, dbGet, ret. rewrite Hv'.
      unfold select_pending. rewrite Hnone. reflexivity.
Qed.

(** X20: the execute route completes the requests that carry the id the
    caller passes, whichever vault they belong to, and leaves every other
    request as it was: the id is not compared with the request the check
    found. *)
Theorem execute_completes_the_id_it_is_given
    (v t : string) (a : Q) (rid : Z) (api : transfer_outcome) (now : Z)
    (s : db) :
  allowed (fst (checkSoftLock v a now s)) = true ->
  v <> EmptyString -> t <> EmptyString -> ~ a == 0 ->
  rid <> 0%Z -> accepted api = true ->
  (forall r, In r (withdrawal_requests s) -> id r = rid ->
     exists r',
       In r' (withdrawal_requests
                (snd (withdrawExecute v t a (Some rid) api now s))) /\
       core r' = core r /\ status r' = "completed"%string) /\
  (forall r, In r (withdrawal_requests s) -> id r <> rid ->
     In r (withdrawal_requests
             (snd (withdrawExecute v t a (Some rid) api now s)))).
Proof.
  intros Hal Hv Ht Ha Hrid Hacc.
  destruct (withdrawExecute_done v t a rid api now s Hal Hv Ht Ha Hrid Hacc)
    as (s1 & Hreq & _ & ->). simpl. rewrite Hreq. split.
  - intros r Hin Hid. eexists. split.
    + apply in_map_iff. exists r. split; [reflexivity|exact Hin].
    + apply Z.eqb_eq in Hid. rewrite Hid. split; reflexivity.
  - intros r Hin Hid. apply in_map_iff. exists r. split; [|exact Hin].
    apply Z.eqb_neq in Hid. rewrite Hid. reflexivity.
Qed.

(** *** The request route *)

(** What the request route does to the store once its arguments pass. *)
Lemma withdrawRequest_state
    (v : string) (a : Q) (w : option string) (now : Z) (s : db) :
  String.eqb v "" || Qeq_bool a 0 = false ->
  (select_vault v s = None -> snd (withdrawRequest v a w now s) = s) /\
  (forall r, select_pending v s = Some r ->
             snd (withdrawRequest v a w now s) = s) /\
  (forall vault, select_vault v s = Some vault -> select_pending v s = None ->
     exists why impact,
       snd (withdrawRequest v a w now s) = insert_request v a why impact now s).
Proof.
  intro G. unfold withdrawRequest. rewrite G.
  unfold bind at 1. rewrite checkSoftLock_pair.
  unfold bind at 2. unfold bind at 3. rewrite checkSoftLock_pair.
  unfold checkSoftLock, bind, dbGet, ret.
  destruct (select_vault v s) as [vault|] eqn:Hv.
  - destruct (select_pending v s) as [r|] eqn:Hp.
    + simpl. split; [discriminate|]. split; [|discriminate].
      intros _ _. destruct (Qle_bool 24 (hoursSinceRequest now r)); reflexivity.
    + simpl. split; [discriminate|]. split; [discriminate|].
      intros vault' _ _.
      destruct (select_vault_account v s vault Hv) as (acc & Ha).
      unfold createWithdrawalRequest, bind, dbGet, dbRun, ret.
      rewrite Ha. simpl. do 2 eexists. reflexivity.
  - simpl. split; [reflexivity|]. split; [|discriminate].
    intros r _. reflexivity.
Qed.

(** X21: asking twice creates one request.  After a call to the request
    route with a non-zero amount, a second call for the same vault, at any
    time and with any amount and reason, leaves the store as the first call
    left it. *)
Theorem second_request_changes_nothing
    (v : string) (a1 a2 : Q) (w1 w2 : option string) (now1 now2 : Z) (s : db) :
  ~ a1 == 0 ->
  snd (withdrawRequest v a2 w2 now2 (snd (withdrawRequest v a1 w1 now1 s)))
  = snd (withdrawRequest v a1 w1 now1 s).
Proof.
  intro Ha1.
  destruct (String.eqb v "" || Qeq_bool a2 0) eqn:G2.
  { unfold withdrawRequest at 1. rewrite G2. reflexivity. }
  assert (G1 : String.eqb v "" || Qeq_bool a1 0 = false).
  { apply orb_false_iff in G2. destruct G2 as [Gv _]. rewrite Gv. simpl.
    destruct (Qeq_bool a1 0) eqn:E; [|reflexivity].
    apply Qeq_bool_iff in E. contradiction. }
  destruct (withdrawRequest_state v a1 w1 now1 s G1) as (Hnov & Hpend & Hnew).
  destruct (select_vault v s) as [vault|] eqn:Hv.
  - destruct (select_pending v s) as [r|] eqn:Hp.
    + rewrite (Hpend r eq_refl).
      destruct (withdrawRequest_state v a2 w2 now2 s G2) as (_ & Hpend2 & _).
      exact (Hpend2 r Hp).
    + destruct (Hnew vault eq_refl eq_refl) as (why & impact & ->).
      destruct (withdrawRequest_state v a2 w2 now2
                  (insert_request v a1 why impact now1 s) G2)
        as (_ & Hpend2 & _).
      pose proof (select_pending_spec v (insert_request v a1 why impact now1 s))
        as Hsel.
      destruct (select_pending v (insert_request v a1 why impact now1 s))
        as [r|] eqn:Hp'.
      * exact (Hpend2 r eq_refl).
      * exfalso.
        apply (Hsel {| id := next_id (withdrawal_requests s);
                       vault_id := v; amount := a1; reason := why;
                       status := "pending"; impact_message := impact;
                       created_at := current_timestamp now1;
                       completed_at := None |}).
        -- unfold insert_request. simpl. apply in_or_app. right. left.
           reflexivity.
        -- reflexivity.
        -- reflexivity.
  - rewrite (Hnov eq_refl).
    destruct (withdrawRequest_state v a2 w2 now2 s G2) as (Hnov2 & _ & _).
    exact (Hnov2 Hv).
Qed.

End Zone.

(** *** On the sample ledger, with the server in UTC *)

Section OnUtc.
#[local] Existing Instance Fixtures.utc.

Lemma cooling_countdown_witness :
  fst (checkSoftLock "account_vault_1" 10 (Fixtures.today + 5 * 86400000)
         Fixtures.ledger_requested)
  = LockAllowed "Withdrawal unlocked after 24-hour cooling period" 1.
Proof.
  refine (proj1 (proj2 (cooling_countdown_never_increases
                          "account_vault_1" 100 10
                          (Fixtures.today + 86400000)
                          (Fixtures.today + 5 * 86400000)
                          Fixtures.ledger_requested _)) _ _ _).
  - vm_compute. discriminate.
  - vm_compute. reflexivity.
Defined.

Lemma cooling_hours_remaining_bounds_witness :
  (1 <= 23)%Z /\
  ((forall p, In p (withdrawal_requests Fixtures.ledger_requested) ->
              (requestTime p <= Fixtures.today + 3600000)%Z) ->
   (23 <= 24)%Z) /\
  ((forall p, In p (withdrawal_requests Fixtures.ledger_requested) ->
      (created_at p <= Fixtures.today + 3600000)%Z /\
      (0 <= localTZA (created_at p))%Z) ->
   (23 <= 24)%Z).
Proof.
  apply (cooling_hours_remaining_bounds "account_vault_1" 100
           (Fixtures.today + 3600000) Fixtures.ledger_requested
           "cooling_period" 23 "Withdrawal will be available in 23 hours").
  vm_compute. reflexivity.
Defined.

Lemma created_request_unlocks_witness :
  fst (checkSoftLock "account_vault_1" 100
         (Fixtures.today + 24 * 60 * 60 * 1000)
         (snd (createWithdrawalRequest "account_vault_1" 100 None
                 Fixtures.today Fixtures.ledger)))
  = LockAllowed "Withdrawal unlocked after 24-hour cooling period"
      (next_id (withdrawal_requests Fixtures.ledger)).
Proof.
  refine (proj1 (proj2 (created_request_unlocks_by_the_local_reading
                          "account_vault_1" 100 None Fixtures.today
                          Fixtures.ledger _ _)) _ _ _).
  - exists Fixtures.trip_vault. repeat split. left. reflexivity.
  - intros p [].
  - vm_compute. discriminate.
Defined.

Lemma routes_keep_ids_unique_witness :
  unique_ids
    (serve [ WithdrawRequest "account_vault_1" 100 None Fixtures.today;
             WithdrawExecute "account_vault_1" "account_main_1" 100 (Some 1%Z)
               {| accepted := true; fromBalance := Some 900;
                  toBalance := Some 3600 |}
               (Fixtures.today + 90000000);
             WithdrawRequest "account_vault_1" 50 None
               (Fixtures.today + 95000000) ]
           Fixtures.ledger).
Proof.
  apply routes_keep_ids_unique. unfold unique_ids. simpl. constructor.
Defined.

Lemma routes_request_only_vaults_witness :
  requests_of_vaults
    (serve [ WithdrawRequest "account_main_1" 75 None Fixtures.today;
             WithdrawRequest "account_vault_1" 100 None
               (Fixtures.today + 1000) ]
           Fixtures.ledger).
Proof.
  apply routes_request_only_vaults. intros r [].
Defined.

Lemma execute_changes_nothing_witness :
  exists answer,
    withdrawExecute "account_vault_1" "account_main_1" 100 (Some 1%Z)
      {| accepted := true; fromBalance := Some 900; toBalance := Some 3600 |}
      (Fixtures.today + 3600000) Fixtures.ledger_requested
    = (answer, Fixtures.ledger_requested) /\
    (forall ok, answer <> TransferJson ok).
Proof.
  apply execute_changes_nothing_while_locked.
  intros p [<-|[]] _ _. vm_compute. reflexivity.
Defined.

Lemma execute_with_checked_id_witness :
  pending_count "account_vault_1"
    (snd (withdrawExecute "account_vault_1" "account_main_1" 100 (Some 1%Z)
            {| accepted := true; fromBalance := Some 900;
               toBalance := Some 3600 |}
            (Fixtures.today + 90000000) Fixtures.ledger_requested)) = 0%nat.
Proof.
  apply (execute_with_checked_id_closes_request
           "account_vault_1" "account_main_1" 100
           {| accepted := true; fromBalance := Some 900; toBalance := Some 3600 |}
           (Fixtures.today + 90000000) Fixtures.ledger_requested
           "Withdrawal unlocked after 24-hour cooling period" 1).
  - intro v. unfold pending_count. simpl.
    destruct (is_pending_for v _); simpl; lia.
  - vm_compute. reflexivity.
  - discriminate.
  - discriminate.
  - intro H. discriminate H.
  - discriminate.
  - reflexivity.
Defined.

Lemma execute_completes_the_id_witness :
  exists r',
    In r' (withdrawal_requests
             (snd (withdrawExecute "account_vault_1" "account_main_1" 100
                     (Some 2%Z)
                     {| accepted := true; fromBalance := None;
                        toBalance := None |}
                     Fixtures.today Fixtures.two_vaults_requested))) /\
    vault_id r' = "account_vault_2"%string /\
    status r' = "completed"%string.
Proof.
  destruct (execute_completes_the_id_it_is_given
              "account_vault_1" "account_main_1" 100 2
              {| accepted := true; fromBalance := None; toBalance := None |}
              Fixtures.today Fixtures.two_vaults_requested) as [H _].
  - vm_compute. reflexivity.
  - discriminate.
  - discriminate.
  - intro H. discriminate H.
  - discriminate.
  - reflexivity.
  - destruct (H {| id := 2; vault_id := "account_vault_2"; amount := 60;
                   reason := EmptyString; status := "pending";
                   impact_message := EmptyString;
                   created_at :=
                     current_timestamp (Fixtures.today - 2 * Fixtures.day);
                   completed_at := None |})
      as (r' & Hin & Hc & Hs).
    + right. left. reflexivity.
    + reflexivity.
    + exists r'. split; [exact Hin|]. split; [|exact Hs].
      unfold core in Hc. simpl in Hc. congruence.
Defined.

(** Executing a withdrawal from the first vault with the id of the second
    vault's request completes that one and leaves the first vault's own
    request Pending. *)
Example execute_with_another_vaults_id :
  map (fun r => (vault_id r, status r))
    (withdrawal_requests
       (snd (withdrawExecute "account_vault_1" "account_main_1" 100 (Some 2%Z)
               {| accepted := true; fromBalance := None; toBalance := None |}
               Fixtures.today Fixtures.two_vaults_requested)))
  = [ ("account_vault_1", "pending"); ("account_vault_2", "completed") ]%string.
Proof. vm_compute. reflexivity. Qed.

Lemma second_request_changes_nothing_witness :
  snd (withdrawRequest "account_vault_1" 40 (Some "again"%string)
         (Fixtures.today + 60000)
         (snd (withdrawRequest "account_vault_1" 100 None Fixtures.today
                 Fixtures.ledger)))
  = snd (withdrawRequest "account_vault_1" 100 None Fixtures.today
           Fixtures.ledger).
Proof.
  apply second_request_changes_nothing. intro H. discriminate H.
Defined.

End OnUtc.

End SoftLockMore.

(** ** Creating a request and reading it back *)

Module RoundTrip.
Import Js SoftLock StatusRoute Ledger JsFacts SoftLockFacts SoftLockMore.

(** What follows holds for a server in any time zone [tz]. *)
Section Zone.
Context {tz : timezone}.

(** X25: a created request is read back as it was written.  After
    [createWithdrawalRequest] on a vault that had no Pending request, the
    status route shows an active request with the new id, the requested
    amount, the given reason (empty when none was given), the impact text
    that was returned to the caller, and the creation time in whole
    seconds. *)
Theorem status_shows_the_created_request
    (vaultId : string) (amt : Q) (why : option string) (now t : Z) (s : db) :
  (exists a, In a (increase_accounts s) /\
             increase_account_id a = vaultId /\
             account_type a = "vault"%string) ->
  (forall p, In p (withdrawal_requests s) ->
             vault_id p = vaultId -> status p <> "pending"%string) ->
  exists impact availableAt h can,
    fst (createWithdrawalRequest vaultId amt why now s)
    = Created "24-hour cooling period started" impact availableAt /\
    fst (withdrawStatus vaultId t
           (snd (createWithdrawalRequest vaultId amt why now s)))
    = ActiveRequest (next_id (withdrawal_requests s)) amt
        (match why with Some r => r | None => EmptyString end)
        impact (current_timestamp now) h can /\
    (current_timestamp now <= now < current_timestamp now + 1000)%Z.
Proof.
  intros Hvault Hnone.
  destruct (select_vault_some vaultId s Hvault) as (v & Hv & _).
  destruct (select_vault_account vaultId s v Hv) as (a & Ha).
  unfold createWithdrawalRequest, bind, dbGet, dbRun, ret. rewrite Ha.
  cbv beta iota zeta. cbn [fst snd].
  unfold withdrawStatus, bind, dbGet, ret.
  assert (Hp : select_pending vaultId
                 (insert_request vaultId amt
                    match why with Some r => r | None => EmptyString end
                    (impactMessage a amt) now s)
               = Some {| id := next_id (withdrawal_requests s);
                         vault_id := vaultId; amount := amt;
                         reason := match why with
                                   | Some r => r
                                   | None => EmptyString
                                   end;
                         status := "pending";
                         impact_message := impactMessage a amt;
                         created_at := current_timestamp now;
                         completed_at := None |}).
  { unfold select_pending, insert_request. simpl.
    rewrite filter_app, (no_pending_filter vaultId s Hnone). simpl.
    unfold is_pending_for. simpl. rewrite String.eqb_refl. reflexivity. }
  rewrite Hp. cbv beta iota zeta. cbn [fst].
  do 4 eexists. split; [reflexivity|]. split; [reflexivity|].
  unfold current_timestamp.
  pose proof (Z.div_mod now 1000 ltac:(lia)) as Hdm.
  pose proof (Z.mod_pos_bound now 1000 ltac:(lia)) as Hb.
  lia.
Qed.

End Zone.

(** *** On the sample ledger, with the server in UTC *)

Section OnUtc.
#[local] Existing Instance Fixtures.utc.

Lemma status_shows_the_created_request_witness :
  exists impact availableAt h can,
    fst (createWithdrawalRequest "account_vault_1" 100 None
           (Fixtures.today + 250) Fixtures.ledger)
    = Created "24-hour cooling period started" impact availableAt /\
    fst (withdrawStatus "account_vault_1" (Fixtures.today + 7200000)
           (snd (createWithdrawalRequest "account_vault_1" 100 None
                   (Fixtures.today + 250) Fixtures.ledger)))
    = ActiveRequest (next_id (withdrawal_requests Fixtures.ledger)) 100
        EmptyString impact (current_timestamp (Fixtures.today + 250)) h can /\
    (current_timestamp (Fixtures.today + 250) <= Fixtures.today + 250
     < current_timestamp (Fixtures.today + 250) + 1000)%Z.
Proof.
  apply (status_shows_the_created_request "account_vault_1" 100 None
           (Fixtures.today + 250) (Fixtures.today + 7200000) Fixtures.ledger).
  - exists Fixtures.trip_vault. repeat split. left. reflexivity.
  - intros p [].
Defined.

End OnUtc.

End RoundTrip.

